(** * beeget: a shallow embedding of [beeget.py]

    The program downloads the latest Bee release for the current platform,
    starts it as a child process supervised by a background thread, waits
    for port 1633 to accept connections, fetches one file from the local
    gateway and asks the supervisor to stop.

    Everything the program does is an interaction with the outside world
    (HTTP, file system, sockets, a child process), so the embedding runs the
    source's control flow in a small state-and-exception monad over an
    environment [Env] of oracles that answer the external calls, and records
    every call in a trace. *)

From Stdlib Require Import String Ascii List Arith ZArith Bool Lia DecimalString.
Import ListNotations.
Open Scope list_scope.
Open Scope string_scope.

(** ** Python runtime fragments *)

Module Py.

(** The exception classes the program meets.  [requests]' base class
    [RequestException] derives from [IOError], that is [OSError]; so do
    [socket.timeout] and [ConnectionRefusedError].  [JSONDecodeError] is
    what [response.json()] raises on a body that is not JSON, a
    [RequestException] in current versions of [requests]. *)
Inductive ExcClass :=
| RuntimeError
| OSError
| RequestException
| SocketTimeout
| ConnectionRefusedError
| JSONDecodeError
| AttributeError
| TypeError
| KeyError.

Record Exc := mkExc { exc_class : ExcClass; exc_msg : string }.

Definition class_eqb (a b : ExcClass) : bool :=
  match a, b with
  | RuntimeError, RuntimeError
  | OSError, OSError
  | RequestException, RequestException
  | SocketTimeout, SocketTimeout
  | ConnectionRefusedError, ConnectionRefusedError
  | JSONDecodeError, JSONDecodeError
  | AttributeError, AttributeError
  | TypeError, TypeError
  | KeyError, KeyError => true
  | _, _ => false
  end.

(** [issubclass c d] *)
Definition issubclass (c d : ExcClass) : bool :=
  class_eqb c d ||
  match c, d with
  | RequestException, OSError
  | SocketTimeout, OSError
  | ConnectionRefusedError, OSError
  | JSONDecodeError, RequestException
  | JSONDecodeError, OSError => true
  | _, _ => false
  end.

(** Does [except (d1, ..., dn)] catch [e]? *)
Definition catches (ds : list ExcClass) (e : Exc) : bool :=
  existsb (issubclass (exc_class e)) ds.

(** Truth value of a [str]: the empty string is falsy. *)
Definition truthy (s : string) : bool :=
  match s with EmptyString => false | String _ _ => true end.

(** [str(n)] for a non-negative [int]. *)
Definition str_of_nat (n : nat) : string :=
  NilEmpty.string_of_uint (Nat.to_uint n).

Definition lower_char (c : ascii) : ascii :=
  let n := nat_of_ascii c in
  if ((65 <=? n)%nat && (n <=? 90)%nat)%bool then ascii_of_nat (n + 32) else c.

(** [s.lower()] on ASCII text. *)
Fixpoint lower (s : string) : string :=
  match s with
  | EmptyString => EmptyString
  | String c s' => String (lower_char c) (lower s')
  end.

Definition dquote : ascii := "034"%char.
Definition newline : ascii := "010"%char.

(** The one-character string holding a double quote. *)
Definition dq : string := String dquote EmptyString.

End Py.

Import Py.

(** ** The regular expression of the retrieval step *)

Module Re.

(** The pattern is [filename=Q(.*?)Q], with Q the double quote
    character.  This is its literal part, up to the group. *)
Definition filename_lit : string := "filename=" ++ dq.

(** [strip_prefix p s] is what follows [p] when [s] starts with [p]. *)
Fixpoint strip_prefix (p s : string) : option string :=
  match p with
  | EmptyString => Some s
  | String c p' =>
      match s with
      | EmptyString => None
      | String d s' => if Ascii.eqb c d then strip_prefix p' s' else None
      end
  end.

(** The lazy group [(.*?)] followed by the closing quote: the shortest
    run of characters other than a line feed that ends just before a
    double quote.  The dot does not match a line feed, and the lazy
    quantifier stops at the first double quote. *)
Fixpoint lazy_group (s : string) : option string :=
  match s with
  | EmptyString => None
  | String c s' =>
      if Ascii.eqb c dquote then Some EmptyString
      else if Ascii.eqb c newline then None
      else option_map (String c) (lazy_group s')
  end.

(** A match of the whole pattern that starts at the head of [s];
    the result is [group(1)]. *)
Definition match_here (s : string) : option string :=
  match strip_prefix filename_lit s with
  | Some rest => lazy_group rest
  | None => None
  end.

(** [re.search(pattern, s)]: the leftmost match, as
    [Some (match.group(1))], or [None]. *)
Fixpoint search (s : string) : option string :=
  match match_here s with
  | Some g => Some g
  | None =>
      match s with
      | EmptyString => None
      | String _ s' => search s'
      end
  end.

(** [s.find(filename_lit)]: the index of the leftmost occurrence of the
    literal, used to state which token the search picks. *)
Fixpoint find_lit (s : string) : option nat :=
  match strip_prefix filename_lit s with
  | Some _ => Some 0
  | None =>
      match s with
      | EmptyString => None
      | String _ s' => option_map S (find_lit s')
      end
  end.

(** Does the character occur in the string? *)
Fixpoint mem_char (c : ascii) (s : string) : bool :=
  match s with
  | EmptyString => false
  | String d s' => Ascii.eqb c d || mem_char c s'
  end.

(** Does the string hold the literal with a double quote somewhere after
    it, that is a quoted token, whatever its content? *)
Fixpoint has_token (s : string) : bool :=
  match strip_prefix filename_lit s with
  | Some rest => mem_char dquote rest
  | None => false
  end
  || match s with
     | EmptyString => false
     | String _ s' => has_token s'
     end.

End Re.

(** ** The output file name (lines 149-160 of [query_bee_api]) *)

Definition fallback_filename (swarmhash : string) : string :=
  "downloaded_file_" ++ swarmhash ++ ".dat".

(** [filename] after the header has been inspected:
    [None], or the first group of the match. *)
Definition header_filename (content_disposition : option string) : option string :=
  match content_disposition with
  | Some cd => if truthy cd then Re.search cd else None
  | None => None
  end.

(** [filename] after the fallback: the name the output file is opened under. *)
Definition output_filename (content_disposition : option string) (swarmhash : string) : string :=
  match header_filename content_disposition with
  | Some f => if truthy f then f else fallback_filename swarmhash
  | None => fallback_filename swarmhash
  end.

(** ** The outside world *)

(** What [response.json()] returns: the Python value of a JSON document.
    An object is given by the items of its [dict], whose keys are distinct;
    of a number the program only ever tests whether it is zero. *)
#[local] Unset Elimination Schemes.
Inductive Json :=
| JNull
| JBool (b : bool)
| JNum (n : Z)
| JStr (s : string)
| JArr (items : list Json)
| JObj (fields : list (string * Json)).
#[local] Set Elimination Schemes.

(** [type(j).__name__] *)
Definition type_name (j : Json) : string :=
  match j with
  | JNull => "NoneType"
  | JBool _ => "bool"
  | JNum _ => "int"
  | JStr _ => "str"
  | JArr _ => "list"
  | JObj _ => "dict"
  end.

(** The truth value of a JSON value: [None], [False], zero and the empty
    string, list and dict are falsy. *)
Definition json_truthy (j : Json) : bool :=
  match j with
  | JNull => false
  | JBool b => b
  | JNum n => negb (Z.eqb n 0)
  | JStr s => truthy s
  | JArr items => match items with [] => false | _ :: _ => true end
  | JObj fields => match fields with [] => false | _ :: _ => true end
  end.

(** The value of a key in the items of a [dict]. *)
Fixpoint obj_get (fields : list (string * Json)) (key : string) : option Json :=
  match fields with
  | [] => None
  | (k, v) :: rest => if String.eqb k key then Some v else obj_get rest key
  end.

(** [data.get(key, default)]: only a [dict] has the method. *)
Definition json_get (data : Json) (key : string) (default : Json) : Exc + Json :=
  match data with
  | JObj fields =>
      inr (match obj_get fields key with Some v => v | None => default end)
  | _ => inl (mkExc AttributeError
                ("'" ++ type_name data ++ "' object has no attribute 'get'"))
  end.

(** [obj[key]] for a [str] key. *)
Definition json_getitem (obj : Json) (key : string) : Exc + Json :=
  match obj with
  | JObj fields =>
      match obj_get fields key with
      | Some v => inr v
      | None => inl (mkExc KeyError ("'" ++ key ++ "'"))
      end
  | JArr _ => inl (mkExc TypeError "list indices must be integers or slices, not str")
  | JStr _ => inl (mkExc TypeError "string indices must be integers")
  | _ => inl (mkExc TypeError ("'" ++ type_name obj ++ "' object is not subscriptable"))
  end.

(** [for x in j]: the values the loop visits.  A list yields its items, a
    dict its keys, a string its characters; nothing else can be iterated. *)
Definition json_iter (j : Json) : Exc + list Json :=
  match j with
  | JArr items => inr items
  | JObj fields => inr (map (fun kv => JStr (fst kv)) fields)
  | JStr s => inr (map (fun c => JStr (String c EmptyString)) (list_ascii_of_string s))
  | _ => inl (mkExc TypeError ("'" ++ type_name j ++ "' object is not iterable"))
  end.

(** [v == target] where [target] is [None] or a [str]: a string equals the
    same string, [None] equals [None], and no other value equals either. *)
Definition json_eq_opt (v : Json) (target : option string) : bool :=
  match v, target with
  | JStr s, Some f => String.eqb s f
  | JNull, None => true
  | _, _ => false
  end.

(** [os.path.basename(p)] and the like accept a [str] only. *)
Definition fspath (j : Json) : Exc + string :=
  match j with
  | JStr s => inr s
  | _ => inl (mkExc TypeError
                ("expected str, bytes or os.PathLike object, not " ++ type_name j))
  end.

(** What the program looks at in a [requests] response. *)
Record Response := mkResponse {
  (** [raise_for_status()]: [None] when the status is a success, else the
      message of the [HTTPError] (a [RequestException]) it raises. *)
  resp_status_error : option string;
  (** [headers.get(<Content-Disposition>)] *)
  resp_content_disposition : option string;
  (** [json()]: the document of the body, or the message of the
      [JSONDecodeError] when the body is not JSON. *)
  resp_json : string + Json;
  (** the chunks [iter_content(1024)] yields ... *)
  resp_chunks : list string;
  (** ... and the transport error that ends the stream early, if any. *)
  resp_stream_error : option string
}.

Inductive ConnectResult :=
| Connected
| TimedOut          (* socket.timeout *)
| Refused           (* ConnectionRefusedError *)
| ConnectFailed (msg : string).  (* any other OSError of connect() *)

(** The two operations of [threading.Event] that write the flag.  The
    program only ever calls [set]; [clear] is part of the library. *)
Inductive FlagOp := FlagSet | FlagClear.

Definition apply_flag_op (op : FlagOp) (flag : bool) : bool :=
  match op with FlagSet => true | FlagClear => false end.

(** The calls of the main thread, in the order they are made. *)
Inductive Event :=
| EvHttpGet (url : string)
| EvPathExists (path : string)
| EvMakedirs (path : string) (exist_ok : bool)
| EvOpen (path : string)
| EvWrite (path : string) (chunk : string)
| EvClose (path : string)
| EvChmod (path : string) (mode : nat)
| EvEventNew                             (* threading.Event() *)
| EvFlag (op : FlagOp)                   (* stop_flag.set() / .clear() *)
| EvThreadStart (bee_path : string)      (* bee_thread.start() *)
| EvConnect (host : string) (port : nat) (timeout : nat)
| EvSleep (seconds : nat)
| EvPrint (line : string)
| EvJoin (timeout : nat) (timed_out : bool)
| EvProcessTerminate.                    (* bee_process.terminate() *)

(** The answers of the outside world.  File-system oracles are keyed by
    path and by the place of the call, because the file system changes
    between two calls. *)
Record Env := mkEnv {
  platform_system : string;              (* platform.system() *)
  platform_machine : string;             (* platform.machine() *)
  env_os_name : string;                  (* os.name *)
  (** [os.environ.get('LOCALAPPDATA', join(expanduser('~'), 'AppData', 'Local'))] *)
  env_localappdata : string;
  (** [os.path.join(os.path.expanduser('~'), '.local', 'bin')] *)
  env_local_bin : string;
  os_path_join : string -> string -> string;
  os_path_basename : string -> string;
  os_path_dirname : string -> string;
  (** [requests.get(url)]: an error message when the call itself raises. *)
  requests_get : string -> string + Response;
  download_dir_exists : string -> bool;         (* line 76 *)
  makedirs_fails : string -> option string;     (* line 77 *)
  makedirs_exist_ok_fails : string -> option string;  (* line 88 *)
  open_fails : string -> option string;         (* lines 90 and 162 *)
  write_fails : string -> string -> option string;
  chmod_fails : string -> option string;        (* line 100 *)
  bee_path_exists : string -> bool;             (* line 117 *)
  (** [sock.connect], by the number of attempts made before this one. *)
  connect_result : nat -> ConnectResult;
  (** whether [join(timeout=1)] returns because the timeout elapsed *)
  join_times_out : bool;
  (** [subprocess.Popen(command)]: the message of the [OSError] if the
      child cannot be spawned. *)
  popen_fails : list string -> option string;
  (** whether the child exits once it has been sent the termination
      request, so that [process.wait()] returns *)
  process_exits : bool
}.

(** ** The monad of the main thread *)

Record World := mkWorld {
  w_trace : list Event;      (* calls made so far, oldest first *)
  w_stop_flag : bool;        (* the state of the [threading.Event] *)
  w_connects : nat           (* connection attempts made so far *)
}.

Definition world0 : World := mkWorld [] false 0.

Inductive Outcome (A : Type) :=
| Returned (a : A)
| Raised (e : Exc)
| OutOfFuel.
Arguments Returned {A} a.
Arguments Raised {A} e.
Arguments OutOfFuel {A}.

Definition M (A : Type) : Type := World -> Outcome A * World.

Definition ret {A} (a : A) : M A := fun w => (Returned a, w).

Definition bind {A B} (m : M A) (k : A -> M B) : M B :=
  fun w =>
    match m w with
    | (Returned a, w') => k a w'
    | (Raised e, w') => (Raised e, w')
    | (OutOfFuel, w') => (OutOfFuel, w')
    end.

Definition raise {A} (c : ExcClass) (msg : string) : M A :=
  fun w => (Raised (mkExc c msg), w).

Notation "x <- m ;; k" := (bind m (fun x => k))
  (at level 61, m at next level, right associativity).
Notation "m ;;; k" := (bind m (fun _ => k))
  (at level 61, right associativity).

(** [try: body  except cs1 as e: h1 e  except cs2 as e: h2 e ...]: the first
    clause whose classes catch the exception handles it; an exception raised
    by a handler is not caught by the clauses after it. *)
Fixpoint dispatch {A} (handlers : list (list ExcClass * (Exc -> M A))) (e : Exc) : M A :=
  match handlers with
  | [] => fun w => (Raised e, w)
  | (cs, h) :: rest => if catches cs e then h e else dispatch rest e
  end.

Definition try_except {A} (body : M A) (handlers : list (list ExcClass * (Exc -> M A))) : M A :=
  fun w =>
    match body w with
    | (Raised e, w') => dispatch handlers e w'
    | r => r
    end.

(** [with ... : body]: the exit action runs however the body ends. *)
Definition with_exit {A} (body : M A) (on_exit : M unit) : M A :=
  fun w =>
    match body w with
    | (Returned a, w') => (a' <- on_exit ;; ret a) w'
    | (Raised e, w') => (a' <- on_exit ;; (fun w'' => (Raised e, w''))) w'
    | (OutOfFuel, w') => (OutOfFuel, w')
    end.

Definition emit (e : Event) : M unit :=
  fun w => (Returned tt, mkWorld (w_trace w ++ [e])%list (w_stop_flag w) (w_connects w)).

(** The result of a pure operation that may raise. *)
Definition lift {A} (r : Exc + A) : M A :=
  fun w =>
    match r with
    | inl e => (Raised e, w)
    | inr a => (Returned a, w)
    end.

(** Raise [cls(msg)] if the oracle answered with an error message. *)
Definition fail_if {A} (err : option string) (cls : ExcClass) (a : A) : M A :=
  match err with
  | Some msg => raise cls msg
  | None => ret a
  end.

(** ** Library calls, as the program uses them *)

Section Program.

Variable env : Env.

Definition requests_get_m (url : string) : M Response :=
  emit (EvHttpGet url) ;;;
  match requests_get env url with
  | inl msg => raise RequestException msg
  | inr r => ret r
  end.

Definition raise_for_status (r : Response) : M unit :=
  fail_if (resp_status_error r) RequestException tt.

Definition path_exists_m (oracle : string -> bool) (path : string) : M bool :=
  emit (EvPathExists path) ;;; ret (oracle path).

Definition makedirs (path : string) : M unit :=
  emit (EvMakedirs path false) ;;; fail_if (makedirs_fails env path) OSError tt.

Definition makedirs_exist_ok (path : string) : M unit :=
  emit (EvMakedirs path true) ;;; fail_if (makedirs_exist_ok_fails env path) OSError tt.

Definition file_write (path chunk : string) : M unit :=
  emit (EvWrite path chunk) ;;; fail_if (write_fails env path chunk) OSError tt.

(** [for chunk in chunks: f.write(chunk)] *)
Fixpoint write_chunks (path : string) (chunks : list string) : M unit :=
  match chunks with
  | [] => ret tt
  | c :: cs => file_write path c ;;; write_chunks path cs
  end.

(** [with open(path, 'wb') as f:
       for chunk in response.iter_content(1024): f.write(chunk)] *)
Definition save_stream (path : string) (r : Response) : M unit :=
  emit (EvOpen path) ;;;
  fail_if (open_fails env path) OSError tt ;;;
  with_exit
    (write_chunks path (resp_chunks r) ;;;
     fail_if (resp_stream_error r) RequestException tt)
    (emit (EvClose path)).

Definition chmod (path : string) (mode : nat) : M unit :=
  emit (EvChmod path mode) ;;; fail_if (chmod_fails env path) OSError tt.

(** [threading.Event()]: a fresh flag, unset. *)
Definition event_new : M unit :=
  fun w => (Returned tt, mkWorld (w_trace w ++ [EvEventNew])%list false (w_connects w)).

Definition flag_write (op : FlagOp) : M unit :=
  fun w => (Returned tt,
            mkWorld (w_trace w ++ [EvFlag op])%list
                    (apply_flag_op op (w_stop_flag w)) (w_connects w)).

(** [stop_flag.set()] *)
Definition stop_flag_set : M unit := flag_write FlagSet.

(** [bee_thread.start()]: returns once the thread has been started; what
    the thread does is [start_bee_node], below. *)
Definition thread_start (bee_path : string) : M unit :=
  emit (EvThreadStart bee_path).

(** [sock = socket.socket(...); sock.settimeout(1); sock.connect((host, port))] *)
Definition sock_connect (host : string) (port timeout : nat) : M unit :=
  fun w =>
    let w' := mkWorld (w_trace w ++ [EvConnect host port timeout])%list
                      (w_stop_flag w) (S (w_connects w)) in
    match connect_result env (w_connects w) with
    | Connected => (Returned tt, w')
    | TimedOut => (Raised (mkExc SocketTimeout "timed out"), w')
    | Refused => (Raised (mkExc ConnectionRefusedError "Connection refused"), w')
    | ConnectFailed msg => (Raised (mkExc OSError msg), w')
    end.

Definition sleep (seconds : nat) : M unit := emit (EvSleep seconds).

Definition print (line : string) : M unit := emit (EvPrint line).

(** [bee_thread.join(timeout)].  [Thread.join] waits until the thread ends
    or the timeout elapses, and returns [None] either way. *)
Definition thread_join (timeout : nat) : M (option unit) :=
  emit (EvJoin timeout (join_times_out env)) ;;; ret None.

Definition process_terminate : M unit := emit EvProcessTerminate.

(** ** [download_latest_bee] *)

Definition releases_url : string :=
  "https://api.github.com/repos/ethersphere/bee/releases/latest".

Definition filename_map : list ((string * string) * string) :=
  [ (("linux", "x86_64"), "bee-linux-amd64");
    (("linux", "arm64"), "bee-linux-arm64");
    (("darwin", "x86_64"), "bee-darwin-amd64");
    (("darwin", "arm64"), "bee-darwin-arm64");
    (("windows", "x86_64"), "bee-windows-amd64.exe") ].

(** [d.get(key)] on a dict given as its list of items. *)
Fixpoint dict_get (d : list ((string * string) * string)) (key : string * string) : option string :=
  match d with
  | [] => None
  | ((k1, k2), v) :: rest =>
      if (String.eqb k1 (fst key) && String.eqb k2 (snd key))%bool then Some v
      else dict_get rest key
  end.

(** Lines 59-63: [download_url] after the loop over the values of
    [assets], or the exception a subscription raises on the way. *)
Fixpoint select_download_url (assets : list Json) (os_name arch : string)
  : Exc + option Json :=
  match assets with
  | [] => inr None
  | asset :: rest =>
      match json_getitem asset "name" with
      | inl e => inl e
      | inr name =>
          if json_eq_opt name (dict_get filename_map (os_name, arch)) then
            match json_getitem asset "browser_download_url" with
            | inl e => inl e
            | inr url => inr (Some url)
            end
          else select_download_url rest os_name arch
      end
  end.

(** [response.json()] (line 43). *)
Definition response_json (response : Response) : Exc + Json :=
  match resp_json response with
  | inl msg => inl (mkExc JSONDecodeError msg)
  | inr data => inr data
  end.

(** Lines 34-41: the request for the metadata of the latest release. *)
Definition fetch_release : M Response :=
  try_except
    (response <- requests_get_m releases_url ;;
     raise_for_status response ;;;
     ret response)
    [([RequestException], fun e =>
        raise RuntimeError ("Failed to download latest Bee release: " ++ exc_msg e))].

(** Lines 43-66: the value of [download_url] once the guard of line 65 has
    been passed. *)
Definition locate_asset (response : Response) : M Json :=
  data <- lift (response_json response) ;;
  assets <- lift (json_get data "assets" (JArr [])) ;;
  let os_name := lower (platform_system env) in
  let arch := platform_machine env in
  assets <- lift (json_iter assets) ;;
  download_url <- lift (select_download_url assets os_name arch) ;;
  match download_url with
  | Some u =>
      if negb (json_truthy u) then
        raise RuntimeError
          ("Bee binary not found for architecture: " ++ os_name ++ "-" ++ arch)
      else ret u
  | None =>
      raise RuntimeError ("Bee binary not found for architecture: " ++ os_name ++ "-" ++ arch)
  end.

(** Lines 68-102: the transfer of the asset into the install directory. *)
Definition install_asset (download_url : Json) : M string :=
  let os_name := lower (platform_system env) in
  let download_dir :=
    if String.eqb os_name "windows" then env_localappdata env else env_local_bin env in
  (if truthy download_dir then
     ex <- path_exists_m (download_dir_exists env) download_dir ;;
     if negb ex then makedirs download_dir else ret tt
   else ret tt) ;;;
  (* line 80: [os.path.basename(download_url)] needs a [str] *)
  download_url <- lift (fspath download_url) ;;
  let download_path := os_path_join env download_dir (os_path_basename env download_url) in
  try_except
    (response <- requests_get_m download_url ;;
     raise_for_status response ;;;
     makedirs_exist_ok (os_path_dirname env download_path) ;;;
     save_stream download_path response)
    [([RequestException], fun e =>
        raise RuntimeError ("Failed to download Bee binary: " ++ exc_msg e));
     ([OSError], fun e =>
        raise RuntimeError ("Failed to create directory structure: " ++ exc_msg e))] ;;;
  (if String.eqb (env_os_name env) "posix" then chmod download_path 493 (* 0o755 *) else ret tt) ;;;
  ret download_path.

Definition download_latest_bee : M string :=
  response <- fetch_release ;;
  download_url <- locate_asset response ;;
  install_asset download_url.
(** ** [query_bee_api] *)

Definition max_retries : nat := 30.

(** Lines 133-143, the [while True] loop.  The body of the [try] yields
    [None] for [break]; the handler yields the new [retry_count]. *)
Fixpoint wait_for_bee (fuel : nat) (retry_count : nat) : M unit :=
  match fuel with
  | O => fun w => (OutOfFuel, w)
  | S fuel' =>
      next <- try_except
          (sock_connect "localhost" 1633 1 ;;; ret None)
          [([SocketTimeout; ConnectionRefusedError], fun e =>
              let retry_count := retry_count + 1 in
              if (max_retries <=? retry_count)%nat then
                raise RuntimeError
                  ("Bee node failed to start after " ++ str_of_nat max_retries ++ " retries.")
              else
                sleep 1 ;;; ret (Some retry_count))] ;;
      match next with
      | None => ret tt
      | Some retry_count => wait_for_bee fuel' retry_count
      end
  end.

(** Lines 145-172: the [try] block of the retrieval and its handler. *)
Definition retrieve (swarmhash : string) : M unit :=
  let bee_url := "http://localhost:1633/bzz/" ++ swarmhash in
  try_except
    (response <- requests_get_m bee_url ;;
     raise_for_status response ;;;
     let filename := output_filename (resp_content_disposition response) swarmhash in
     save_stream filename response ;;;
     print ("Downloaded file: " ++ filename) ;;;
     stop_flag_set)
    [([RequestException], fun e =>
        raise RuntimeError ("Failed to download file using Bee API: " ++ exc_msg e))].

(** Lines 175-182. *)
Definition stop_and_join : M unit :=
  stop_flag_set ;;;
  bee_process <- thread_join 1 ;;
  match bee_process with
  | Some _ => process_terminate
  | None => ret tt
  end.

Definition query_bee_api (swarmhash : string) : M unit :=
  bee_path <- download_latest_bee ;;
  ex <- path_exists_m (bee_path_exists env) bee_path ;;
  if negb ex then
    raise RuntimeError "Bee binary not found. Please ensure it's downloaded or installed."
  else
  event_new ;;;
  thread_start bee_path ;;;
  wait_for_bee max_retries 0 ;;;
  retrieve swarmhash ;;;
  stop_and_join.

(** ** The command line (lines 184-192) *)

Definition main (swarmhash : string) : M unit :=
  try_except (query_bee_api swarmhash)
    [([RuntimeError], fun e => print ("Error: " ++ exc_msg e))].

End Program.

(** The lines written to standard output. *)
Fixpoint stdout_of (t : list Event) : list string :=
  match t with
  | [] => []
  | EvPrint l :: t' => l :: stdout_of t'
  | _ :: t' => stdout_of t'
  end.

(** The exit status of the interpreter: 0 when the script runs to its end,
    1 when an exception is left uncaught (the traceback goes to standard
    error). *)
Definition exit_status {A} (o : Outcome A) : option nat :=
  match o with
  | Returned _ => Some 0
  | Raised _ => Some 1
  | OutOfFuel => None
  end.

(** ** The supervision thread: [start_bee_node] *)

(** Where the thread stands.  [TSpawn] is line 16, [TPoll] the test of the
    [while] on line 17, [TTerminate] line 22, [TWait] line 23.  An exception
    that leaves [start_bee_node] ends the thread ([TCrashed]); the
    interpreter reports it on standard error and nothing else learns of it. *)
Inductive ThreadPc :=
| TNotStarted
| TSpawn (bee_path : string)
| TPoll
| TTerminate
| TWait
| TFinished
| TCrashed (e : Exc).

Inductive ThreadAct :=
| ActPopen (command : list string)
| ActIsSet (seen : bool)          (* stop_flag.is_set() and its answer *)
| ActSleep (seconds : nat)
| ActTerminate                    (* process.terminate() *)
| ActWait                         (* process.wait() has returned *)
| ActFlag (op : FlagOp).          (* a write to the flag *)

Definition bee_command (bee_path : string) : list string :=
  [bee_path; "start"; "--swap-enable=false"; "--full-node=false";
   "--blockchain-rpc-endpoint="; "--password=beeget"].

(** One step of the thread, given the current value of the flag; [None]
    when the thread cannot move (not started, ended, or blocked in
    [process.wait()]). *)
Definition start_bee_node_step (env : Env) (pc : ThreadPc) (flag : bool)
  : option (ThreadPc * list ThreadAct) :=
  match pc with
  | TSpawn bee_path =>
      let command := bee_command bee_path in
      match popen_fails env command with
      | Some msg => Some (TCrashed (mkExc OSError msg), [ActPopen command])
      | None => Some (TPoll, [ActPopen command])
      end
  | TPoll =>
      if flag then Some (TTerminate, [ActIsSet true])
      else Some (TPoll, [ActIsSet false; ActSleep 0])
  | TTerminate => Some (TWait, [ActTerminate])
  | TWait => if process_exits env then Some (TFinished, [ActWait]) else None
  | TNotStarted | TFinished | TCrashed _ => None
  end.

(** ** The two threads together *)

(** The main thread never reads the flag and [join] returns [None] whatever
    the thread did, so what the main thread does is fixed by the
    environment: it is replayed from its trace, interleaved in every
    possible way with the steps of the supervision thread. *)
Record Sys := mkSys {
  sys_main : list Event;        (* calls the main thread has still to make *)
  sys_thread : ThreadPc;
  sys_flag : bool;              (* the shared [threading.Event] *)
  sys_acts : list ThreadAct     (* what the thread has done, oldest first *)
}.

Definition flag_after_event (e : Event) (flag : bool) : bool :=
  match e with
  | EvEventNew => false
  | EvFlag op => apply_flag_op op flag
  | _ => flag
  end.

Definition flag_after_act (a : ThreadAct) (flag : bool) : bool :=
  match a with
  | ActFlag op => apply_flag_op op flag
  | _ => flag
  end.

Definition thread_after_event (e : Event) (pc : ThreadPc) : ThreadPc :=
  match e with
  | EvThreadStart bee_path => TSpawn bee_path
  | _ => pc
  end.

Inductive step (env : Env) : Sys -> Sys -> Prop :=
| step_main : forall e rest pc flag acts,
    step env (mkSys (e :: rest) pc flag acts)
             (mkSys rest (thread_after_event e pc) (flag_after_event e flag) acts)
| step_thread : forall todo pc flag acts pc' new,
    start_bee_node_step env pc flag = Some (pc', new) ->
    step env (mkSys todo pc flag acts)
             (mkSys todo pc' (fold_left (fun f a => flag_after_act a f) new flag)
                    (acts ++ new)%list).

Inductive steps (env : Env) : Sys -> Sys -> Prop :=
| steps_refl : forall s, steps env s s
| steps_next : forall s1 s2 s3, steps env s1 s2 -> step env s2 s3 -> steps env s1 s3.

(** The program at its start: the whole run of [main] is still to come. *)
Definition sys_init (env : Env) (swarmhash : string) : Sys :=
  mkSys (w_trace (snd (main env swarmhash world0))) TNotStarted false [].

(** ** Changing one answer of the environment *)

Definition with_connect_result (env : Env) (f : nat -> ConnectResult) : Env :=
  mkEnv (platform_system env) (platform_machine env) (env_os_name env)
        (env_localappdata env) (env_local_bin env)
        (os_path_join env) (os_path_basename env) (os_path_dirname env)
        (requests_get env) (download_dir_exists env) (makedirs_fails env)
        (makedirs_exist_ok_fails env) (open_fails env) (write_fails env)
        (chmod_fails env) (bee_path_exists env)
        f (join_times_out env) (popen_fails env) (process_exits env).

Definition with_popen_fails (env : Env) (f : list string -> option string) : Env :=
  mkEnv (platform_system env) (platform_machine env) (env_os_name env)
        (env_localappdata env) (env_local_bin env)
        (os_path_join env) (os_path_basename env) (os_path_dirname env)
        (requests_get env) (download_dir_exists env) (makedirs_fails env)
        (makedirs_exist_ok_fails env) (open_fails env) (write_fails env)
        (chmod_fails env) (bee_path_exists env)
        (connect_result env) (join_times_out env) f (process_exits env).

(** The child ignores the termination request for longer than the join
    waits: the join times out and [process.wait()] has not returned. *)
Definition with_slow_exit (env : Env) : Env :=
  mkEnv (platform_system env) (platform_machine env) (env_os_name env)
        (env_localappdata env) (env_local_bin env)
        (os_path_join env) (os_path_basename env) (os_path_dirname env)
        (requests_get env) (download_dir_exists env) (makedirs_fails env)
        (makedirs_exist_ok_fails env) (open_fails env) (write_fails env)
        (chmod_fails env) (bee_path_exists env)
        (connect_result env) true (popen_fails env) false.

(** The install directory does not exist and cannot be created. *)
Definition with_unwritable_home (env : Env) (msg : string) : Env :=
  mkEnv (platform_system env) (platform_machine env) (env_os_name env)
        (env_localappdata env) (env_local_bin env)
        (os_path_join env) (os_path_basename env) (os_path_dirname env)
        (requests_get env) (fun _ => false) (fun _ => Some msg)
        (makedirs_exist_ok_fails env) (open_fails env) (write_fails env)
        (chmod_fails env) (bee_path_exists env)
        (connect_result env) (join_times_out env) (popen_fails env) (process_exits env).

Definition with_platform (env : Env) (system machine : string) : Env :=
  mkEnv system machine (env_os_name env)
        (env_localappdata env) (env_local_bin env)
        (os_path_join env) (os_path_basename env) (os_path_dirname env)
        (requests_get env) (download_dir_exists env) (makedirs_fails env)
        (makedirs_exist_ok_fails env) (open_fails env) (write_fails env)
        (chmod_fails env) (bee_path_exists env)
        (connect_result env) (join_times_out env) (popen_fails env) (process_exits env).

(** The release service gives the answer [r] to the metadata request. *)
Definition with_release (env : Env) (r : string + Response) : Env :=
  mkEnv (platform_system env) (platform_machine env) (env_os_name env)
        (env_localappdata env) (env_local_bin env)
        (os_path_join env) (os_path_basename env) (os_path_dirname env)
        (fun url => if String.eqb url releases_url then r else requests_get env url)
        (download_dir_exists env) (makedirs_fails env)
        (makedirs_exist_ok_fails env) (open_fails env) (write_fails env)
        (chmod_fails env) (bee_path_exists env)
        (connect_result env) (join_times_out env) (popen_fails env) (process_exits env).

(** [os.makedirs(..., exist_ok=True)] of line 88 fails. *)
Definition with_unwritable_bin (env : Env) (msg : string) : Env :=
  mkEnv (platform_system env) (platform_machine env) (env_os_name env)
        (env_localappdata env) (env_local_bin env)
        (os_path_join env) (os_path_basename env) (os_path_dirname env)
        (requests_get env) (download_dir_exists env) (makedirs_fails env)
        (fun _ => Some msg) (open_fails env) (write_fails env)
        (chmod_fails env) (bee_path_exists env)
        (connect_result env) (join_times_out env) (popen_fails env) (process_exits env).

(** ** Sample environments *)

Module Sample.

(** An asset as the hosting service lists it, with the two keys the
    program reads. *)
Definition asset (name url : string) : Json :=
  JObj [("name", JStr name); ("browser_download_url", JStr url)].

Definition linux_asset : Json :=
  asset "bee-linux-amd64" "https://example.org/dl/bee-linux-amd64".

Definition darwin_asset : Json :=
  asset "bee-darwin-arm64" "https://example.org/dl/bee-darwin-arm64".

(** The release document, with the list of its assets. *)
Definition release (assets : list Json) : Json :=
  JObj [("tag_name", JStr "v2.0.0"); ("assets", JArr assets)].

Definition not_json : string + Json := inl "Expecting value: line 1 column 1 (char 0)".

Definition metadata : Response :=
  mkResponse None None (inr (release [darwin_asset; linux_asset]))
             [] None.

Definition binary : Response := mkResponse None None not_json ["ELF"] None.

Definition file_ok (cd : option string) : Response :=
  mkResponse None cd not_json ["hello"] None.

Definition not_found : Response :=
  mkResponse (Some "404 Client Error: Not Found") None not_json [] None.

Definition basename (s : string) : string :=
  if String.eqb s "https://example.org/dl/bee-linux-amd64" then "bee-linux-amd64" else s.

(** A Linux machine on which everything works: the port accepts the
    third connection attempt and the gateway serves [r]. *)
Definition linux (r : string + Response) : Env :=
  mkEnv "Linux" "x86_64" "posix" "C:\Users\u\AppData\Local" "/home/u/.local/bin"
    (fun a b => a ++ "/" ++ b) basename (fun _ => "/home/u/.local/bin")
    (fun url => if String.eqb url releases_url then inr metadata
                else if String.eqb url "https://example.org/dl/bee-linux-amd64" then inr binary
                else r)
    (fun _ => true) (fun _ => None) (fun _ => None) (fun _ => None) (fun _ _ => None)
    (fun _ => None) (fun _ => true)
    (fun k => if (k <? 2)%nat then Refused else Connected)
    false (fun _ => None) true.

Definition served : Env := linux (inr (file_ok None)).

(** The gateway answers 404. *)
Definition gateway_404 : Env := linux (inr not_found).

(** Nothing ever listens on the port. *)
Definition never_ready : Env := with_connect_result served (fun _ => Refused).

(** The binary cannot be executed, so nothing listens on the port. *)
Definition spawn_fails : Env :=
  with_popen_fails never_ready (fun _ => Some "[Errno 8] Exec format error").

Definition slow_exit : Env := with_slow_exit served.

(** A 64-bit ARM machine under Linux, as [platform] reports it. *)
Definition linux_aarch64 : Env := with_platform served "Linux" "aarch64".

(** A second asset with the name of [linux_asset]. *)
Definition linux_mirror : Json :=
  asset "bee-linux-amd64" "https://mirror.example.org/bee-linux-amd64".

Definition unwritable_home : Env :=
  with_unwritable_home served "[Errno 13] Permission denied: '/home/u/.local'".

(** An asset whose name is [null], under the address of the amd64 binary. *)
Definition unnamed_asset : Json :=
  JObj [("name", JNull);
        ("browser_download_url", JStr "https://example.org/dl/bee-linux-amd64")].

Definition release_response (data : string + Json) : string + Response :=
  inr (mkResponse None None data [] None).

(** The 64-bit ARM machine, and a release that lists an asset without a
    name. *)
Definition unnamed_release : Env :=
  with_release linux_aarch64
    (release_response (inr (release [darwin_asset; unnamed_asset]))).





(** The directory of the binary cannot be created by the second
    [os.makedirs] (line 88). *)
Definition unwritable_bin : Env :=
  with_unwritable_bin served "[Errno 13] Permission denied: '/home/u/.local/bin'".

End Sample.

(** ** Reading a run *)

(** The flag after the given calls of the main thread. *)
Definition replay (t : list Event) (flag : bool) : bool :=
  fold_left (fun f e => flag_after_event e f) t flag.

(** [emits P m]: whatever the world, [m] returns or raises (it does not run
    out of fuel), only adds calls that satisfy [P] to the trace, and leaves
    the flag as those calls leave it. *)
Definition emits {A} (P : Event -> Prop) (m : M A) : Prop :=
  forall w, exists t,
    w_trace (snd (m w)) = (w_trace w ++ t)%list
    /\ Forall P t
    /\ w_stop_flag (snd (m w)) = replay t (w_stop_flag w)
    /\ fst (m w) <> OutOfFuel.

Definition is_print (e : Event) : Prop :=
  match e with EvPrint _ => True | _ => False end.

Definition is_flag_write (e : Event) : Prop :=
  match e with EvEventNew | EvFlag _ => True | _ => False end.

(** Calls of the file system and of HTTP: all that [download_latest_bee]
    and the transfer of the retrieval make. *)
Definition is_io (e : Event) : Prop :=
  match e with
  | EvHttpGet _ | EvPathExists _ | EvMakedirs _ _ | EvOpen _
  | EvWrite _ _ | EvClose _ | EvChmod _ _ => True
  | _ => False
  end.

(** Calls of the readiness probe. *)
Definition is_probe (e : Event) : Prop :=
  match e with
  | EvConnect _ _ _ | EvSleep _ => True
  | _ => False
  end.

(** ** The readiness probe, as the specification describes it *)

Definition probe_attempt : Event := EvConnect "localhost" 1633 1.

(** [n] attempts that fail, each followed by the sleep of one second. *)
Fixpoint failed_attempts (n : nat) : list Event :=
  match n with
  | O => []
  | S n' => probe_attempt :: EvSleep 1 :: failed_attempts n'
  end.

(** The target does not accept: the attempt times out or is refused. *)
Definition refuses (r : ConnectResult) : Prop := r = TimedOut \/ r = Refused.

Fixpoint count_connects (t : list Event) : nat :=
  match t with
  | [] => 0
  | EvConnect _ _ _ :: t' => S (count_connects t')
  | _ :: t' => count_connects t'
  end.

Fixpoint count_sleeps (t : list Event) : nat :=
  match t with
  | [] => 0
  | EvSleep _ :: t' => S (count_sleeps t')
  | _ :: t' => count_sleeps t'
  end.

(** The address of the retrieval request (line 128). *)
Definition bee_url (swarmhash : string) : string :=
  "http://localhost:1633/bzz/" ++ swarmhash.

(** Calls made while the run is being set up: anything but output, writes
    to an existing flag, the join and the forced termination. *)
Definition is_setup (e : Event) : Prop :=
  match e with
  | EvPrint _ | EvFlag _ | EvJoin _ _ | EvProcessTerminate => False
  | _ => True
  end.

(** What a run of [query_bee_api], or of a tail of it, looks like.  If it
    returns, the gateway answered with a success [r], and the trace is made
    of set-up calls, the retrieval request, the calls that save the body
    under the output file name (the file is opened, receives the chunks of
    the body in their order, and is closed), the line of output, the two calls of
    [stop_flag.set()] (lines 169 and 176) and the join.  If it raises, only
    set-up calls were made. *)
Definition query_spec (env : Env) (swarmhash : string) (m : M unit) : Prop :=
  forall w, exists o w', m w = (o, w') /\
    match o with
    | Returned _ =>
        exists r pre t,
          requests_get env (bee_url swarmhash) = inr r
          /\ resp_status_error r = None
          /\ w_trace w' =
             (w_trace w ++ pre ++ EvHttpGet (bee_url swarmhash)
                :: EvOpen (output_filename (resp_content_disposition r) swarmhash) :: t ++
                [EvPrint ("Downloaded file: "
                          ++ output_filename (resp_content_disposition r) swarmhash);
                 EvFlag FlagSet; EvFlag FlagSet; EvJoin 1 (join_times_out env)])%list
          /\ Forall is_setup pre
          /\ Forall is_io t
          /\ w_stop_flag w' = true
          /\ t = (map (EvWrite (output_filename (resp_content_disposition r) swarmhash))
                      (resp_chunks r)
                  ++ [EvClose (output_filename (resp_content_disposition r) swarmhash)])%list
    | Raised e =>
        exists t, w_trace w' = (w_trace w ++ t)%list /\ Forall is_setup t
                  /\ w_stop_flag w' = replay t (w_stop_flag w)
    | OutOfFuel => False
    end.

(** ** The flag along a run *)

(** Each of the calls still to come keeps a flag that is set, set. *)
Fixpoint flag_safe (flag : bool) (todo : list Event) : Prop :=
  match todo with
  | [] => True
  | e :: rest =>
      (flag = true -> flag_after_event e flag = true)
      /\ flag_safe (flag_after_event e flag) rest
  end.

(** The thread has not begun to shut the child down. *)
Definition still_supervising (pc : ThreadPc) : Prop :=
  match pc with
  | TTerminate | TWait | TFinished => False
  | _ => True
  end.

Definition writes_flag (e : Event) : Prop :=
  match e with EvFlag _ => True | _ => False end.

(** ** Three sentences of the specification, as they are written *)

(** A spawn error reaches the caller of the supervisor's start: if the
    thread was started on a binary that cannot be spawned, [query_bee_api]
    raises the error of the spawn. *)
Definition spawn_error_propagates (env : Env) (swarmhash : string) : Prop :=
  forall bee_path msg,
    In (EvThreadStart bee_path) (w_trace (snd (query_bee_api env swarmhash world0))) ->
    popen_fails env (bee_command bee_path) = Some msg ->
    fst (query_bee_api env swarmhash world0) = Raised (mkExc OSError msg).

(** A header that holds a quoted token names the output file: the token is
    the one opened by the leftmost occurrence of the literal, and its
    content runs up to the next double quote. *)
Definition named_by_quoted_token (cd swarmhash : string) : Prop :=
  forall pre tok post,
    cd = pre ++ Re.filename_lit ++ tok ++ dq ++ post ->
    Re.find_lit cd = Some (String.length pre) ->
    Re.mem_char dquote tok = false ->
    output_filename (Some cd) swarmhash = tok.

(** The content of a token the pattern can match: it holds no double
    quote (the lazy group stops at the first one) and no line feed (the dot
    does not match it). *)
Definition token_content (tok : string) : Prop :=
  Re.mem_char dquote tok = false /\ Re.mem_char newline tok = false.

(** [cd] holds the quoted token [tok] between [pre] and [post], and no
    quoted token of [cd] starts further to the left. *)
Definition leftmost_token (cd pre tok post : string) : Prop :=
  cd = pre ++ Re.filename_lit ++ tok ++ dq ++ post
  /\ token_content tok
  /\ forall a g b,
      cd = a ++ Re.filename_lit ++ g ++ dq ++ b -> token_content g ->
      String.length pre <= String.length a.

(** Every failure that leaves [query_bee_api] is reported as one line
    [Error: message], and the exit status is 0. *)
Definition cli_reports_every_failure (env : Env) (swarmhash : string) : Prop :=
  forall e w',
    query_bee_api env swarmhash world0 = (Raised e, w') ->
    stdout_of (w_trace (snd (main env swarmhash world0))) = ["Error: " ++ exc_msg e]
    /\ exit_status (fst (main env swarmhash world0)) = Some 0.

(** ** The classes of the exceptions a computation raises *)








(** ** Counting what the two threads do *)

Fixpoint count_starts (t : list Event) : nat :=
  match t with
  | [] => 0
  | EvThreadStart _ :: t' => S (count_starts t')
  | _ :: t' => count_starts t'
  end.

Fixpoint count_popen (acts : list ThreadAct) : nat :=
  match acts with
  | [] => 0
  | ActPopen _ :: acts' => S (count_popen acts')
  | _ :: acts' => count_popen acts'
  end.

Fixpoint count_terminate (acts : list ThreadAct) : nat :=
  match acts with
  | [] => 0
  | ActTerminate :: acts' => S (count_terminate acts')
  | _ :: acts' => count_terminate acts'
  end.

Definition no_start (e : Event) : Prop :=
  match e with EvThreadStart _ => False | _ => True end.

(** [starts_at_most n m]: [m] starts at most [n] threads. *)
Definition starts_at_most {A} (n : nat) (m : M A) : Prop :=
  forall w, exists t,
    w_trace (snd (m w)) = (w_trace w ++ t)%list /\ count_starts t <= n.

(** How many children the thread has spawned, and how many termination
    requests it has sent, when it stands at [pc]. *)
Definition spawned_at (pc : ThreadPc) : nat :=
  match pc with
  | TNotStarted | TSpawn _ => 0
  | _ => 1
  end.

Definition terminated_at (pc : ThreadPc) : nat :=
  match pc with
  | TWait | TFinished => 1
  | _ => 0
  end.

Definition started (pc : ThreadPc) : nat :=
  match pc with TNotStarted => 0 | _ => 1 end.

(** The invariant of the two threads. *)
Definition sys_inv (s : Sys) : Prop :=
  count_starts (sys_main s) + started (sys_thread s) <= 1
  /\ count_popen (sys_acts s) = spawned_at (sys_thread s)
  /\ count_terminate (sys_acts s) = terminated_at (sys_thread s)
  /\ (still_supervising (sys_thread s) \/ sys_flag s = true)
  /\ flag_safe (sys_flag s) (sys_main s).

(** ** Requests *)

Definition no_get (e : Event) : Prop :=
  match e with EvHttpGet _ => False | _ => True end.

(** The only address a request may go to is [u]. *)
Definition gets_only (u : string) (e : Event) : Prop :=
  match e with EvHttpGet url => url = u | _ => True end.

(** The install directory (lines 69-73). *)
Definition download_dir (env : Env) : string :=
  if String.eqb (lower (platform_system env)) "windows"
  then env_localappdata env else env_local_bin env.

Definition no_chmod (e : Event) : Prop :=
  match e with EvChmod _ _ => False | _ => True end.

(** ** Assets *)

(** [asset] is an object whose [name] is [v]. *)
Definition has_name (asset v : Json) : Prop :=
  exists fields, asset = JObj fields /\ obj_get fields "name" = Some v.

(** The name the table gives the running platform, if any (the right
    operand of line 61). *)
Definition mapped_name (env : Env) : option string :=
  dict_get filename_map (lower (platform_system env), platform_machine env).

(** The error of line 66. *)
Definition not_found_error (env : Env) : Exc :=
  mkExc RuntimeError
    ("Bee binary not found for architecture: "
     ++ lower (platform_system env) ++ "-" ++ platform_machine env).

(** The world once the calls [t] have been made. *)
Definition after (w : World) (t : list Event) : World :=
  mkWorld (w_trace w ++ t)%list (w_stop_flag w) (w_connects w).

(** * Properties *)

Example output_filename_report :
  output_filename (Some ("attachment; filename=" ++ dq ++ "report.dat" ++ dq)) "abc123"
  = "report.dat".
Proof. reflexivity. Qed.

Example output_filename_absent :
  output_filename None "abc123" = "downloaded_file_abc123.dat".
Proof. reflexivity. Qed.

(** ** The search of the file name *)

Module ReFacts.
Import Re.

Lemma append_assoc (a b c : string) : (a ++ b) ++ c = a ++ (b ++ c).
Proof. induction a as [|x a IH]; simpl; [reflexivity | now rewrite IH]. Qed.

Lemma strip_prefix_sound : forall p s r, strip_prefix p s = Some r -> s = p ++ r.
Proof.
  induction p as [|c p IH]; intros s r H; simpl in *.
  - now inversion H.
  - destruct s as [|d s]; [discriminate|].
    destruct (Ascii.eqb_spec c d) as [->|]; [|discriminate].
    now rewrite (IH _ _ H).
Qed.

Lemma strip_prefix_complete : forall p r, strip_prefix p (p ++ r) = Some r.
Proof.
  induction p as [|c p IH]; intros r; simpl; [reflexivity|].
  now rewrite Ascii.eqb_refl.
Qed.

Lemma lazy_group_sound : forall s g,
    lazy_group s = Some g ->
    exists post, s = g ++ dq ++ post
                 /\ mem_char dquote g = false /\ mem_char newline g = false.
Proof.
  induction s as [|c s IH]; intros g H; simpl in H; [discriminate|].
  destruct (Ascii.eqb_spec c dquote) as [->|Hq].
  - inversion H; subst. exists s. now repeat split.
  - destruct (Ascii.eqb_spec c newline) as [->|Hn]; [discriminate|].
    destruct (lazy_group s) as [g'|] eqn:E; [|discriminate].
    inversion H; subst. destruct (IH _ eq_refl) as (post & -> & Hd & Hl).
    exists post. cbn [mem_char]. rewrite Hd, Hl. repeat split.
    + destruct (Ascii.eqb_spec dquote c); [congruence | reflexivity].
    + destruct (Ascii.eqb_spec newline c); [congruence | reflexivity].
Qed.

Lemma lazy_group_complete : forall g post,
    mem_char dquote g = false -> mem_char newline g = false ->
    lazy_group (g ++ dq ++ post) = Some g.
Proof.
  induction g as [|c g IH]; intros post Hd Hl.
  - reflexivity.
  - cbn [mem_char] in Hd, Hl. cbn [append lazy_group].
    apply orb_false_iff in Hd as [Hd1 Hd2]. apply orb_false_iff in Hl as [Hl1 Hl2].
    rewrite Ascii.eqb_sym in Hd1. rewrite Ascii.eqb_sym in Hl1.
    rewrite Hd1, Hl1, (IH post Hd2 Hl2). reflexivity.
Qed.

(** A successful search found an occurrence of the pattern. *)
Lemma search_sound : forall s g,
    search s = Some g ->
    exists pre post, s = pre ++ filename_lit ++ g ++ dq ++ post
                     /\ mem_char dquote g = false /\ mem_char newline g = false.
Proof.
  induction s as [|c s IH]; intros g H.
  - discriminate.
  - unfold search in H; fold search in H.
    destruct (match_here (String c s)) as [g'|] eqn:E.
    + inversion H; subst. unfold match_here in E.
      destruct (strip_prefix filename_lit (String c s)) as [rest|] eqn:P; [|discriminate].
      apply strip_prefix_sound in P.
      destruct (lazy_group_sound _ _ E) as (post & -> & Hd & Hl).
      exists EmptyString, post. now rewrite P.
    + destruct (IH _ H) as (pre & post & -> & Hd & Hl).
      exists (String c pre), post. now repeat split.
Qed.

(** The search returns the content of the token opened by the leftmost
    occurrence of the literal, when that content holds no line feed. *)
Lemma search_leftmost : forall pre tok post,
    find_lit (pre ++ filename_lit ++ tok ++ dq ++ post) = Some (String.length pre) ->
    mem_char dquote tok = false -> mem_char newline tok = false ->
    search (pre ++ filename_lit ++ tok ++ dq ++ post) = Some tok.
Proof.
  induction pre as [|c pre IH]; intros tok post Hf Hd Hl.
  - change (EmptyString ++ filename_lit ++ tok ++ dq ++ post)
      with (filename_lit ++ tok ++ dq ++ post).
    destruct (filename_lit ++ tok ++ dq ++ post) eqn:E; [discriminate|].
    unfold search; fold search. rewrite <- E. unfold match_here.
    rewrite strip_prefix_complete, lazy_group_complete by assumption. reflexivity.
  - change (String c pre ++ filename_lit ++ tok ++ dq ++ post)
      with (String c (pre ++ filename_lit ++ tok ++ dq ++ post)) in *.
    unfold find_lit in Hf; fold find_lit in Hf.
    unfold search; fold search. unfold match_here.
    destruct (strip_prefix filename_lit (String c (pre ++ filename_lit ++ tok ++ dq ++ post)));
      [discriminate|].
    apply IH; try assumption.
    destruct (find_lit (pre ++ filename_lit ++ tok ++ dq ++ post)); simpl in Hf; congruence.
Qed.

(** The search returns the content of the leftmost token whose content
    holds no line feed, whatever tokens come after it. *)
Lemma search_first_clean : forall pre tok post,
    mem_char dquote tok = false -> mem_char newline tok = false ->
    (forall a g b,
        pre ++ filename_lit ++ tok ++ dq ++ post = a ++ filename_lit ++ g ++ dq ++ b ->
        mem_char dquote g = false -> mem_char newline g = false ->
        String.length pre <= String.length a) ->
    search (pre ++ filename_lit ++ tok ++ dq ++ post) = Some tok.
Proof.
  induction pre as [|c pre IH]; intros tok post Hd Hl Hmin.
  - change (EmptyString ++ filename_lit ++ tok ++ dq ++ post)
      with (filename_lit ++ tok ++ dq ++ post).
    destruct (filename_lit ++ tok ++ dq ++ post) eqn:E; [discriminate|].
    unfold search; fold search. rewrite <- E. unfold match_here.
    rewrite strip_prefix_complete, lazy_group_complete by assumption. reflexivity.
  - change (String c pre ++ filename_lit ++ tok ++ dq ++ post)
      with (String c (pre ++ filename_lit ++ tok ++ dq ++ post)) in *.
    unfold search; fold search.
    destruct (match_here (String c (pre ++ filename_lit ++ tok ++ dq ++ post)))
      as [g|] eqn:E.
    + exfalso. unfold match_here in E.
      destruct (strip_prefix filename_lit
                  (String c (pre ++ filename_lit ++ tok ++ dq ++ post)))
        as [rest|] eqn:P; [|discriminate].
      apply strip_prefix_sound in P.
      destruct (lazy_group_sound _ _ E) as (b & -> & Hgd & Hgl).
      specialize (Hmin EmptyString g b P Hgd Hgl). cbn in Hmin. lia.
    + apply IH; try assumption.
      intros a g b Ha Hgd Hgl.
      specialize (Hmin (String c a) g b).
      cbn [append String.length] in Hmin. rewrite <- Ha in Hmin.
      specialize (Hmin eq_refl Hgd Hgl). lia.
Qed.

(** The leftmost occurrence of the literal is not after any occurrence. *)
Lemma find_lit_least : forall a r,
    exists n, find_lit (a ++ filename_lit ++ r) = Some n /\ n <= String.length a.
Proof.
  induction a as [|c a IH]; intros r.
  - exists 0. split; [|apply Nat.le_refl].
    change (EmptyString ++ filename_lit ++ r) with (filename_lit ++ r).
    destruct (filename_lit ++ r) eqn:E; [discriminate|].
    unfold find_lit; fold find_lit. rewrite <- E.
    now rewrite strip_prefix_complete.
  - change (String c a ++ filename_lit ++ r) with (String c (a ++ filename_lit ++ r)).
    unfold find_lit; fold find_lit.
    destruct (strip_prefix filename_lit (String c (a ++ filename_lit ++ r))).
    + exists 0. split; [reflexivity | apply Nat.le_0_l].
    + destruct (IH r) as (n & -> & Hn). exists (S n). split; [reflexivity|].
      cbn [String.length]. lia.
Qed.

Lemma mem_char_app (c : ascii) (a b : string) :
  mem_char c (a ++ b) = mem_char c a || mem_char c b.
Proof.
  induction a as [|x a IH]; [reflexivity|].
  cbn [append mem_char]. now rewrite IH, orb_assoc.
Qed.

(** [has_token] finds every quoted token. *)
Lemma has_token_complete : forall pre tok post,
    has_token (pre ++ filename_lit ++ tok ++ dq ++ post) = true.
Proof.
  induction pre as [|c pre IH]; intros tok post.
  - change (EmptyString ++ filename_lit ++ tok ++ dq ++ post)
      with (filename_lit ++ tok ++ dq ++ post).
    destruct (filename_lit ++ tok ++ dq ++ post) eqn:E; [discriminate|].
    unfold has_token; fold has_token. rewrite <- E, strip_prefix_complete.
    rewrite mem_char_app. cbn [dq append mem_char].
    rewrite Ascii.eqb_refl, orb_true_r. reflexivity.
  - change (String c pre ++ filename_lit ++ tok ++ dq ++ post)
      with (String c (pre ++ filename_lit ++ tok ++ dq ++ post)).
    unfold has_token; fold has_token. rewrite IH. apply orb_true_r.
Qed.

Lemma no_token (cd : string) :
  has_token cd = false ->
  ~ exists pre tok post, cd = pre ++ filename_lit ++ tok ++ dq ++ post.
Proof.
  intros H (pre & tok & post & ->). rewrite has_token_complete in H. discriminate.
Qed.

Lemma truthy_false (s : string) : truthy s = false -> s = EmptyString.
Proof. destruct s; [reflexivity | discriminate]. Qed.

End ReFacts.

(** C9.  A Content-Disposition header in which no quoted token of the form
    filename=Q...Q occurs (Q the double quote) yields the fallback name
    downloaded_file_{swarmhash}.dat, the very name an absent header yields. *)
Theorem header_without_token_falls_back (cd swarmhash : string) :
  (~ exists pre tok post, cd = pre ++ Re.filename_lit ++ tok ++ dq ++ post) ->
  output_filename (Some cd) swarmhash = "downloaded_file_" ++ swarmhash ++ ".dat"
  /\ output_filename (Some cd) swarmhash = output_filename None swarmhash.
Proof.
  intros Hno.
  assert (E : header_filename (Some cd) = None).
  { unfold header_filename. destruct (truthy cd); [|reflexivity].
    destruct (Re.search cd) as [g|] eqn:S; [|reflexivity].
    exfalso. apply Hno.
    destruct (ReFacts.search_sound _ _ S) as (pre & post & -> & _).
    now exists pre, g, post. }
  unfold output_filename. rewrite E. split; reflexivity.
Qed.

Lemma header_without_token_falls_back_witness :
  output_filename (Some "attachment; filename=report.dat") "abc123"
  = "downloaded_file_abc123.dat"
  /\ output_filename (Some "attachment; filename=report.dat") "abc123"
     = output_filename None "abc123".
Proof.
  apply (header_without_token_falls_back "attachment; filename=report.dat" "abc123").
  apply ReFacts.no_token. vm_compute. reflexivity.
Defined.

(** ** Runs of the monad *)

Lemma replay_app (t1 t2 : list Event) (flag : bool) :
  replay (t1 ++ t2) flag = replay t2 (replay t1 flag).
Proof. unfold replay. apply fold_left_app. Qed.

Section Emits.

Context {A : Type} (P : Event -> Prop).

Lemma emits_ret (a : A) : emits P (ret a).
Proof. intros w. exists []. cbn. rewrite app_nil_r. repeat split; auto; discriminate. Qed.

Lemma emits_reraise (e : Exc) : emits P (fun w => (@Raised A e, w)).
Proof. intros w. exists []. cbn. rewrite app_nil_r. repeat split; auto; discriminate. Qed.

Lemma emits_raise (c : ExcClass) (msg : string) : emits P (@raise A c msg).
Proof. apply emits_reraise. Qed.

Lemma emits_lift (r : Exc + A) : emits P (lift r).
Proof. destruct r; [apply emits_reraise | apply emits_ret]. Qed.

Lemma emits_fail_if (err : option string) (c : ExcClass) (a : A) :
  emits P (fail_if err c a).
Proof. destruct err; [apply emits_raise | apply emits_ret]. Qed.

Lemma emits_weaken (Q : Event -> Prop) (m : M A) :
  (forall e, P e -> Q e) -> emits P m -> emits Q m.
Proof.
  intros HPQ Hm w. destruct (Hm w) as (t & Ht & HP & Hf & Hn).
  exists t. repeat split; auto. eapply Forall_impl; eauto.
Qed.

End Emits.

Lemma emits_emit (P : Event -> Prop) (e : Event) :
  P e -> ~ is_flag_write e -> emits P (emit e).
Proof.
  intros HP Hnf w. exists [e]. cbn. repeat split; auto; try discriminate.
  destruct e; cbn in *; tauto.
Qed.

(** Sequencing, where the continuation may rely on a property [Q] of the
    value the first part returns. *)
Lemma emits_bind_post {A B} (P : Event -> Prop) (Q : A -> Prop) (m : M A) (k : A -> M B) :
  emits P m ->
  (forall w a w', m w = (Returned a, w') -> Q a) ->
  (forall a, Q a -> emits P (k a)) ->
  emits P (bind m k).
Proof.
  intros Hm HQ Hk w. unfold bind. destruct (Hm w) as (t1 & Ht1 & HP1 & Hf1 & Hn1).
  specialize (HQ w).
  destruct (m w) as [[a|e|] w1]; cbn [fst snd] in *.
  - destruct (Hk a (HQ _ _ eq_refl) w1) as (t2 & Ht2 & HP2 & Hf2 & Hn2).
    exists (t1 ++ t2)%list. rewrite Ht2, Ht1, app_assoc, Hf2, Hf1, replay_app.
    repeat split; auto. apply Forall_app; auto.
  - exists t1; repeat split; auto; discriminate.
  - congruence.
Qed.

Lemma emits_bind {A B} (P : Event -> Prop) (m : M A) (k : A -> M B) :
  emits P m -> (forall a, emits P (k a)) -> emits P (bind m k).
Proof.
  intros Hm Hk. apply emits_bind_post with (Q := fun _ => True); auto.
Qed.

Lemma emits_dispatch {A} (P : Event -> Prop)
      (handlers : list (list ExcClass * (Exc -> M A))) (e : Exc) :
  Forall (fun h => forall e, emits P (snd h e)) handlers ->
  emits P (dispatch handlers e).
Proof.
  induction 1 as [|[cs h] rest Hh _ IH]; cbn.
  - apply emits_reraise.
  - destruct (catches cs e); [apply Hh | apply IH].
Qed.

Lemma emits_try_except {A} (P : Event -> Prop) (body : M A)
      (handlers : list (list ExcClass * (Exc -> M A))) :
  emits P body ->
  Forall (fun h => forall e, emits P (snd h e)) handlers ->
  emits P (try_except body handlers).
Proof.
  intros Hb Hh w. unfold try_except. destruct (Hb w) as (t1 & Ht1 & HP1 & Hf1 & Hn1).
  destruct (body w) as [[a|e|] w1]; cbn [fst snd] in *.
  - exists t1; repeat split; auto; discriminate.
  - destruct (emits_dispatch P handlers e Hh w1) as (t2 & Ht2 & HP2 & Hf2 & Hn2).
    exists (t1 ++ t2)%list. rewrite Ht2, Ht1, app_assoc, Hf2, Hf1, replay_app.
    repeat split; auto. apply Forall_app; auto.
  - congruence.
Qed.

Lemma emits_with_exit {A} (P : Event -> Prop) (body : M A) (on_exit : M unit) :
  emits P body -> emits P on_exit -> emits P (with_exit body on_exit).
Proof.
  intros Hb Hx w. unfold with_exit. destruct (Hb w) as (t1 & Ht1 & HP1 & Hf1 & Hn1).
  destruct (body w) as [[a|e|] w1]; cbn [fst snd] in *.
  - assert (H : emits P (a' <- on_exit ;; ret a))
      by (apply emits_bind; [assumption | intros; apply emits_ret]).
    destruct (H w1) as (t2 & Ht2 & HP2 & Hf2 & Hn2).
    exists (t1 ++ t2)%list. rewrite Ht2, Ht1, app_assoc, Hf2, Hf1, replay_app.
    repeat split; auto. apply Forall_app; auto.
  - assert (H : emits P (a' <- on_exit ;; (fun w'' => (@Raised A e, w''))))
      by (apply emits_bind; [assumption | intros; apply emits_reraise]).
    destruct (H w1) as (t2 & Ht2 & HP2 & Hf2 & Hn2).
    exists (t1 ++ t2)%list. rewrite Ht2, Ht1, app_assoc, Hf2, Hf1, replay_app.
    repeat split; auto. apply Forall_app; auto.
  - congruence.
Qed.

(** Breaks a goal [emits P m] down along the structure of [m]. *)
Ltac emits_step :=
  match goal with
  | |- emits _ (bind _ _) => apply emits_bind; [|intros]
  | |- emits _ (ret _) => apply emits_ret
  | |- emits _ (raise _ _) => apply emits_raise
  | |- emits _ (lift _) => apply emits_lift
  | |- emits _ (fail_if _ _ _) => apply emits_fail_if
  | |- emits _ (emit _) => apply emits_emit; [exact I | intros []]
  | |- emits _ (try_except _ _) => apply emits_try_except; [|repeat constructor; cbn [snd]; intros]
  | |- emits _ (with_exit _ _) => apply emits_with_exit
  | |- emits _ (if ?b then _ else _) => destruct b
  | |- emits _ (match ?x with _ => _ end) => destruct x
  | |- emits _ (let _ := _ in _) => cbv zeta
  end.

Section ProgramEmits.

Variable env : Env.

Lemma emits_write_chunks (path : string) (chunks : list string) :
  emits is_io (write_chunks env path chunks).
Proof.
  induction chunks as [|c cs IH]; cbn [write_chunks].
  - apply emits_ret.
  - unfold file_write. repeat emits_step. exact IH.
Qed.

Lemma emits_save_stream (path : string) (r : Response) :
  emits is_io (save_stream env path r).
Proof.
  unfold save_stream. repeat emits_step. apply emits_write_chunks.
Qed.

Lemma emits_fetch_release : emits is_io (fetch_release env).
Proof.
  unfold fetch_release, requests_get_m, raise_for_status. repeat emits_step.
Qed.

Lemma emits_locate_asset (response : Response) :
  emits is_io (locate_asset env response).
Proof. unfold locate_asset. repeat emits_step. Qed.

Lemma emits_install_asset (download_url : Json) :
  emits is_io (install_asset env download_url).
Proof.
  unfold install_asset, requests_get_m, raise_for_status, path_exists_m,
    makedirs, makedirs_exist_ok, chmod.
  repeat first [apply emits_save_stream | emits_step].
Qed.

Lemma emits_download_latest_bee : emits is_io (download_latest_bee env).
Proof.
  unfold download_latest_bee.
  apply emits_bind; [apply emits_fetch_release | intros response].
  apply emits_bind; [apply emits_locate_asset | intros download_url].
  apply emits_install_asset.
Qed.

(** *** The readiness probe *)

Lemma wait_iter_fail (fuel rc : nat) (w : World) :
  refuses (connect_result env (w_connects w)) ->
  wait_for_bee env (S fuel) rc w =
  if (max_retries <=? rc + 1)%nat then
    (Raised (mkExc RuntimeError "Bee node failed to start after 30 retries."),
     mkWorld (w_trace w ++ [probe_attempt])%list (w_stop_flag w) (S (w_connects w)))
  else
    wait_for_bee env fuel (rc + 1)
      (mkWorld (w_trace w ++ [probe_attempt; EvSleep 1])%list
               (w_stop_flag w) (S (w_connects w))).
Proof.
  intros H. cbn [wait_for_bee]. unfold bind at 1. unfold try_except, bind, sock_connect.
  destruct H as [-> | ->]; cbn [dispatch catches existsb exc_class issubclass class_eqb orb];
    (destruct (max_retries <=? rc + 1)%nat;
     [ reflexivity
     | unfold sleep, emit, ret; cbn [w_trace w_stop_flag w_connects];
       rewrite <- app_assoc; reflexivity ]).
Qed.

Lemma wait_iter_connected (fuel rc : nat) (w : World) :
  connect_result env (w_connects w) = Connected ->
  wait_for_bee env (S fuel) rc w =
  (Returned tt,
   mkWorld (w_trace w ++ [probe_attempt])%list (w_stop_flag w) (S (w_connects w))).
Proof.
  intros H. cbn [wait_for_bee]. unfold bind at 1. unfold try_except, bind, sock_connect.
  rewrite H. reflexivity.
Qed.

(** Any other error of [connect] is not caught by the loop. *)
Lemma wait_iter_error (fuel rc : nat) (w : World) (msg : string) :
  connect_result env (w_connects w) = ConnectFailed msg ->
  wait_for_bee env (S fuel) rc w =
  (Raised (mkExc OSError msg),
   mkWorld (w_trace w ++ [probe_attempt])%list (w_stop_flag w) (S (w_connects w))).
Proof.
  intros H. cbn [wait_for_bee]. unfold bind at 1. unfold try_except, bind, sock_connect.
  rewrite H. reflexivity.
Qed.

Lemma wait_accepts : forall n fuel rc w,
  n < fuel -> rc + n < max_retries ->
  (forall k, k < n -> refuses (connect_result env (w_connects w + k))) ->
  connect_result env (w_connects w + n) = Connected ->
  wait_for_bee env fuel rc w =
  (Returned tt,
   mkWorld (w_trace w ++ failed_attempts n ++ [probe_attempt])%list
           (w_stop_flag w) (w_connects w + S n)).
Proof.
  induction n as [|n IH]; intros fuel rc w Hfuel Hrc Hfail Hok;
    (destruct fuel as [|fuel]; [lia|]).
  - rewrite Nat.add_0_r in Hok. rewrite (wait_iter_connected fuel rc w Hok).
    rewrite Nat.add_1_r. reflexivity.
  - rewrite wait_iter_fail
      by (specialize (Hfail 0); rewrite Nat.add_0_r in Hfail; apply Hfail; lia).
    destruct (Nat.leb_spec max_retries (rc + 1)); [lia|].
    rewrite IH; cbn [w_trace w_stop_flag w_connects].
    + rewrite <- app_assoc. cbn [failed_attempts app].
      f_equal. f_equal. lia.
    + lia.
    + lia.
    + intros k Hk. replace (S (w_connects w) + k) with (w_connects w + S k) by lia.
      apply Hfail. lia.
    + replace (S (w_connects w) + n) with (w_connects w + S n) by lia. exact Hok.
Qed.

Lemma wait_gives_up : forall n fuel rc w,
  n < fuel -> rc + S n = max_retries ->
  (forall k, k <= n -> refuses (connect_result env (w_connects w + k))) ->
  wait_for_bee env fuel rc w =
  (Raised (mkExc RuntimeError "Bee node failed to start after 30 retries."),
   mkWorld (w_trace w ++ failed_attempts n ++ [probe_attempt])%list
           (w_stop_flag w) (w_connects w + S n)).
Proof.
  induction n as [|n IH]; intros fuel rc w Hfuel Hrc Hfail;
    (destruct fuel as [|fuel]; [lia|]);
    rewrite wait_iter_fail
      by (specialize (Hfail 0); rewrite Nat.add_0_r in Hfail; apply Hfail; lia);
    destruct (Nat.leb_spec max_retries (rc + 1)); try lia.
  - rewrite Nat.add_1_r. reflexivity.
  - rewrite IH; cbn [w_trace w_stop_flag w_connects].
    + rewrite <- app_assoc. cbn [failed_attempts app]. f_equal. f_equal. lia.
    + lia.
    + lia.
    + intros k Hk. replace (S (w_connects w) + k) with (w_connects w + S k) by lia.
      apply Hfail. lia.
Qed.

Lemma count_failed_attempts (n : nat) :
  count_connects (failed_attempts n ++ [probe_attempt]) = S n
  /\ count_sleeps (failed_attempts n ++ [probe_attempt]) = n.
Proof.
  induction n as [|n [IHc IHs]]; [split; reflexivity|].
  cbn [failed_attempts app count_connects count_sleeps probe_attempt] in *.
  now rewrite IHc, IHs.
Qed.

End ProgramEmits.


(** *** Saving a response body *)

(** What [write_chunks] does: it attempts the chunks in order and stops at
    the first write that fails. *)
Lemma write_chunks_run (env : Env) (path : string) : forall chunks w,
  exists attempted rest,
    chunks = (attempted ++ rest)%list
    /\ snd (write_chunks env path chunks w) = after w (map (EvWrite path) attempted)
    /\ match fst (write_chunks env path chunks w) with
       | Returned _ =>
           rest = [] /\ forall c, In c attempted -> write_fails env path c = None
       | Raised e =>
           exists before c msg,
             attempted = (before ++ [c])%list
             /\ (forall c', In c' before -> write_fails env path c' = None)
             /\ write_fails env path c = Some msg
             /\ e = mkExc OSError msg
       | OutOfFuel => False
       end.
Proof.
  induction chunks as [|c cs IH]; intros w.
  - exists [], []. cbn. unfold after. rewrite app_nil_r. destruct w; repeat split; tauto.
  - cbn [write_chunks]. unfold bind at 1. unfold file_write, bind, emit.
    destruct (write_fails env path c) as [msg|] eqn:F; cbn [fail_if raise ret].
    + exists [c], cs. cbn [fst snd map app]. repeat split.
      exists [], c, msg. cbn. repeat split; tauto.
    + destruct (IH (mkWorld (w_trace w ++ [EvWrite path c])%list
                            (w_stop_flag w) (w_connects w)))
        as (att & rest & E & Ht & Ho).
      exists (c :: att), rest. subst cs. unfold after in *.
      cbn [map app w_trace w_stop_flag w_connects] in *.
      rewrite Ht, <- app_assoc. repeat split.
      destruct (fst (write_chunks env path (att ++ rest)
                       (mkWorld (w_trace w ++ [EvWrite path c])%list
                                (w_stop_flag w) (w_connects w)))).
      * destruct Ho as [-> Hw]. split; [reflexivity|].
        intros c' [<-|Hc']; [exact F | apply Hw, Hc'].
      * destruct Ho as (before & d & msg & -> & Hb & Hw & He).
        exists (c :: before), d, msg. repeat split; auto.
        intros c' [<-|Hc']; [exact F | apply Hb, Hc'].
      * exact Ho.
Qed.

Lemma save_stream_unfold (env : Env) (path : string) (r : Response) (w : World) :
  open_fails env path = None ->
  save_stream env path r w =
  match write_chunks env path (resp_chunks r) (after w [EvOpen path]) with
  | (Returned _, w2) =>
      (match resp_stream_error r with
       | Some msg => Raised (mkExc RequestException msg)
       | None => Returned tt
       end, after w2 [EvClose path])
  | (Raised e, w2) => (Raised e, after w2 [EvClose path])
  | (OutOfFuel, w2) => (OutOfFuel, w2)
  end.
Proof.
  intros Ho. unfold save_stream. unfold bind at 1. unfold emit at 1.
  unfold bind at 1. rewrite Ho. cbn [fail_if]. unfold ret at 1.
  unfold with_exit. unfold bind at 1. fold (after w [EvOpen path]).
  destruct (write_chunks env path (resp_chunks r) _) as [[[]|e|] w2]; try reflexivity.
  destruct (resp_stream_error r); reflexivity.
Qed.

Lemma save_stream_open_fails (env : Env) (path : string) (r : Response) (w : World)
      (msg : string) :
  open_fails env path = Some msg ->
  save_stream env path r w = (Raised (mkExc OSError msg), after w [EvOpen path]).
Proof.
  intros Ho. unfold save_stream. unfold bind at 1. unfold emit at 1.
  unfold bind at 1. rewrite Ho. reflexivity.
Qed.

(** The run of [save_stream] once the file is open: either every chunk
    is written and the end of the stream decides the outcome, or a write
    fails, all the writes before it having succeeded, and no chunk is
    attempted after it; the file is closed in both cases. *)
Lemma save_stream_run (env : Env) (path : string) (r : Response) (w : World) :
  open_fails env path = None ->
  exists attempted rest,
    resp_chunks r = (attempted ++ rest)%list
    /\ snd (save_stream env path r w)
       = after w (EvOpen path :: map (EvWrite path) attempted ++ [EvClose path])
    /\ ((rest = []
         /\ (forall c, In c attempted -> write_fails env path c = None)
         /\ fst (save_stream env path r w)
            = match resp_stream_error r with
              | Some msg => Raised (mkExc RequestException msg)
              | None => Returned tt
              end)
        \/ (exists before c msg,
               attempted = (before ++ [c])%list
               /\ (forall c', In c' before -> write_fails env path c' = None)
               /\ write_fails env path c = Some msg
               /\ fst (save_stream env path r w) = Raised (mkExc OSError msg))).
Proof.
  intros Ho. rewrite (save_stream_unfold env path r w Ho).
  destruct (write_chunks_run env path (resp_chunks r) (after w [EvOpen path]))
    as (att & rest & E & Hs & Hf).
  exists att, rest. split; [exact E|].
  destruct (write_chunks env path (resp_chunks r) _) as [[[]|e|] w2];
    cbn [fst snd] in *; subst w2; unfold after; cbn [w_trace w_stop_flag w_connects];
    [| |contradiction]; rewrite <- !app_assoc; cbn [app]; (split; [reflexivity|]).
  - left. destruct Hf as [-> Hw]. auto.
  - right. destruct Hf as (before & c & msg & -> & Hb & Hw & ->).
    exists before, c, msg. auto.
Qed.

(** [save_stream] returns only when the file opened, every write succeeded
    and the stream ended without an error: the file then holds the body. *)
Lemma save_stream_returned (env : Env) (path : string) (r : Response) (w w' : World) :
  save_stream env path r w = (Returned tt, w') ->
  open_fails env path = None
  /\ (forall c, In c (resp_chunks r) -> write_fails env path c = None)
  /\ resp_stream_error r = None
  /\ w' = after w (EvOpen path :: map (EvWrite path) (resp_chunks r) ++ [EvClose path]).
Proof.
  intros H. destruct (open_fails env path) as [msg|] eqn:Ho.
  - rewrite (save_stream_open_fails env path r w msg Ho) in H. discriminate H.
  - destruct (save_stream_run env path r w Ho) as (att & rest & E & Hs & Hf).
    rewrite H in Hs, Hf. cbn [fst snd] in Hs, Hf.
    destruct Hf as [(-> & Hw & Hf) | (before & c & msg & _ & _ & _ & Hf)];
      [|discriminate Hf].
    rewrite app_nil_r in E. subst att.
    destruct (resp_stream_error r); [discriminate Hf|]. auto.
Qed.
(** ** Runs of the parts of [query_bee_api] *)

Section Runs.
Variable env : Env.

Lemma emits_wait_for_bee : forall fuel rc,
  0 < fuel -> max_retries <= fuel + rc -> emits is_probe (wait_for_bee env fuel rc).
Proof.
  induction fuel as [|fuel IH]; intros rc Hpos Hle w; [lia|].
  destruct (connect_result env (w_connects w)) as [| | |msg] eqn:C.
  - rewrite (wait_iter_connected env fuel rc w C). exists [probe_attempt].
    cbn. repeat split; auto; try discriminate; repeat constructor.
  - rewrite (wait_iter_fail env fuel rc w) by (left; exact C).
    destruct (Nat.leb_spec max_retries (rc + 1)).
    + exists [probe_attempt]. cbn. repeat split; auto; try discriminate; repeat constructor.
    + destruct (IH (rc + 1) ltac:(lia) ltac:(lia)
                  (mkWorld (w_trace w ++ [probe_attempt; EvSleep 1])%list
                           (w_stop_flag w) (S (w_connects w))))
        as (t & Ht & HP & Hf & Hn).
      exists ([probe_attempt; EvSleep 1] ++ t)%list.
      rewrite Ht, Hf. cbn [w_trace w_stop_flag]. rewrite <- app_assoc.
      repeat split; auto. repeat constructor; auto.
  - rewrite (wait_iter_fail env fuel rc w) by (right; exact C).
    destruct (Nat.leb_spec max_retries (rc + 1)).
    + exists [probe_attempt]. cbn. repeat split; auto; try discriminate; repeat constructor.
    + destruct (IH (rc + 1) ltac:(lia) ltac:(lia)
                  (mkWorld (w_trace w ++ [probe_attempt; EvSleep 1])%list
                           (w_stop_flag w) (S (w_connects w))))
        as (t & Ht & HP & Hf & Hn).
      exists ([probe_attempt; EvSleep 1] ++ t)%list.
      rewrite Ht, Hf. cbn [w_trace w_stop_flag]. rewrite <- app_assoc.
      repeat split; auto. repeat constructor; auto.
  - rewrite (wait_iter_error env fuel rc w msg C). exists [probe_attempt].
    cbn. repeat split; auto; try discriminate; repeat constructor.
Qed.

Lemma replay_io (t : list Event) (flag : bool) :
  Forall is_io t -> replay t flag = flag.
Proof.
  induction 1 as [|e t He _ IH]; [reflexivity|].
  unfold replay in *. cbn [fold_left]. rewrite <- IH at 2.
  destruct e; cbn in He; try contradiction; reflexivity.
Qed.

Lemma save_stream_opens (path : string) (r : Response) (w : World) :
  exists t,
    w_trace (snd (save_stream env path r w)) = (w_trace w ++ EvOpen path :: t)%list
    /\ Forall is_io t
    /\ w_stop_flag (snd (save_stream env path r w)) = w_stop_flag w
    /\ fst (save_stream env path r w) <> OutOfFuel.
Proof.
  set (rest := fail_if (open_fails env path) OSError tt ;;;
               with_exit
                 (write_chunks env path (resp_chunks r) ;;;
                  fail_if (resp_stream_error r) RequestException tt)
                 (emit (EvClose path))).
  set (w1 := mkWorld (w_trace w ++ [EvOpen path])%list (w_stop_flag w) (w_connects w)).
  change (save_stream env path r w) with (rest w1).
  assert (H : emits is_io rest)
    by (unfold rest; repeat first [apply emits_write_chunks | emits_step]).
  destruct (H w1) as (t & Ht & HP & Hf & Hn).
  exists t. rewrite Ht, Hf, (replay_io t _ HP). subst w1. cbn [w_trace w_stop_flag].
  rewrite <- app_assoc. auto.
Qed.

Lemma retrieve_run (swarmhash : string) (w : World) :
  exists o w', retrieve env swarmhash w = (o, w') /\
    match o with
    | Returned _ =>
        exists r t,
          requests_get env (bee_url swarmhash) = inr r
          /\ resp_status_error r = None
          /\ w_trace w' =
             (w_trace w ++ EvHttpGet (bee_url swarmhash) :: t ++
                [EvPrint ("Downloaded file: "
                          ++ output_filename (resp_content_disposition r) swarmhash);
                 EvFlag FlagSet])%list
          /\ Forall is_io t
          /\ t = (EvOpen (output_filename (resp_content_disposition r) swarmhash)
                    :: map (EvWrite (output_filename (resp_content_disposition r) swarmhash))
                         (resp_chunks r)
                    ++ [EvClose (output_filename (resp_content_disposition r) swarmhash)])%list
          /\ w_stop_flag w' = true
    | Raised e =>
        exists t, w_trace w' = (w_trace w ++ t)%list /\ Forall is_io t
                  /\ w_stop_flag w' = w_stop_flag w
    | OutOfFuel => False
    end.
Proof.
  unfold retrieve, try_except. fold (bee_url swarmhash).
  unfold bind at 1. unfold requests_get_m. unfold bind at 1. unfold emit at 1.
  destruct (requests_get env (bee_url swarmhash)) as [msg|r] eqn:G.
  - eexists _, _. split; [reflexivity|]. cbn [dispatch catches existsb exc_class issubclass class_eqb orb raise].
    exists [EvHttpGet (bee_url swarmhash)]. cbn. repeat split; auto. repeat constructor.
  - unfold ret at 1. unfold bind at 1. unfold raise_for_status.
    destruct (resp_status_error r) as [msg|] eqn:St.
    + eexists _, _. split; [reflexivity|]. cbn [dispatch catches existsb exc_class issubclass class_eqb orb raise fail_if].
      exists [EvHttpGet (bee_url swarmhash)]. cbn. repeat split; auto. repeat constructor.
    + cbn [fail_if]. unfold ret at 1. unfold bind at 1.
      set (fn := output_filename (resp_content_disposition r) swarmhash).
      set (w1 := mkWorld (w_trace w ++ [EvHttpGet (bee_url swarmhash)])%list (w_stop_flag w) (w_connects w)).
      destruct (save_stream_opens fn r w1) as (t & Ht & HP & Hf & Hn).
      destruct (save_stream env fn r w1) as [[[]|e|] w2] eqn:Sv; cbn [fst snd] in *.
      * eexists _, _. split; [reflexivity|]. exists r, (EvOpen fn :: t).
        destruct (save_stream_returned env fn r w1 w2 Sv) as (_ & _ & _ & Hw2).
        assert (Et : t = (map (EvWrite fn) (resp_chunks r) ++ [EvClose fn])%list).
        { rewrite Hw2 in Ht. unfold after in Ht. cbn [w_trace] in Ht.
          apply app_inv_head in Ht. now inversion Ht. }
        unfold print, stop_flag_set, flag_write, emit, bind.
        cbn [w_trace w_stop_flag apply_flag_op]. rewrite Ht. subst w1. cbn [w_trace].
        repeat split; auto.
        -- rewrite <- !app_assoc. reflexivity.
        -- constructor; [exact I | assumption].
        -- now rewrite Et.
      * assert (E : exists e', dispatch
         [([RequestException],
           fun e0 : Exc =>
           @raise unit RuntimeError
             ("Failed to download file using Bee API: " ++ exc_msg e0))]
         e w2 = (Raised e', w2)).
        { cbn [dispatch]. destruct (catches [RequestException] e); eexists; reflexivity. }
        destruct E as (e' & ->). 
        eexists _, _. split; [reflexivity|]. exists (EvHttpGet (bee_url swarmhash) :: EvOpen fn :: t).
        rewrite Ht, Hf. subst w1. cbn [w_trace w_stop_flag]. rewrite <- app_assoc.
        repeat split; auto. repeat constructor; auto.
      * congruence.
Qed.
Lemma io_is_setup (e : Event) : is_io e -> is_setup e.
Proof. destruct e; cbn; tauto. Qed.

Lemma probe_is_setup (e : Event) : is_probe e -> is_setup e.
Proof. destruct e; cbn; tauto. Qed.

Lemma stop_and_join_run (w : World) :
  stop_and_join env w =
  (Returned tt,
   mkWorld (w_trace w ++ [EvFlag FlagSet; EvJoin 1 (join_times_out env)])%list
           true (w_connects w)).
Proof.
  unfold stop_and_join, stop_flag_set, flag_write, thread_join, emit, bind, ret.
  cbn [w_trace w_stop_flag w_connects apply_flag_op]. rewrite <- app_assoc. reflexivity.
Qed.

Lemma query_spec_tail (swarmhash : string) :
  query_spec env swarmhash (retrieve env swarmhash ;;; stop_and_join env).
Proof.
  intros w. unfold bind.
  destruct (retrieve_run swarmhash w) as (o & w1 & E & H). rewrite E.
  destruct o as [[]|e|]; [| |contradiction].
  - rewrite stop_and_join_run. eexists _, _. split; [reflexivity|].
    destruct H as (r & t & G & St & Ht & HP & Et & Hf).
    rewrite Et in HP. inversion HP; subst.
    exists r, [], (map (EvWrite (output_filename (resp_content_disposition r) swarmhash))
                     (resp_chunks r)
                   ++ [EvClose (output_filename (resp_content_disposition r) swarmhash)])%list.
    cbn [w_trace w_stop_flag]. rewrite Ht.
    repeat split; auto. cbn [app]. rewrite <- !app_assoc. cbn [app].
    rewrite <- !app_assoc. reflexivity.
  - eexists _, _. split; [reflexivity|].
    destruct H as (t & Ht & HP & Hf). exists t. repeat split; auto.
    + eapply Forall_impl; [apply io_is_setup | exact HP].
    + rewrite Hf. symmetry. apply replay_io. exact HP.
Qed.

Lemma query_spec_raise (swarmhash : string) (c : ExcClass) (msg : string) :
  query_spec env swarmhash (raise c msg).
Proof.
  intros w. eexists _, _. split; [reflexivity|]. exists []. cbn.
  rewrite app_nil_r. auto.
Qed.

(** Set-up calls in front of a tail keep the shape of the run. *)
Lemma query_spec_bind {A} (swarmhash : string) (m : M A) (k : A -> M unit) :
  emits is_setup m ->
  (forall a, query_spec env swarmhash (k a)) ->
  query_spec env swarmhash (bind m k).
Proof.
  intros Hm Hk w. unfold bind. destruct (Hm w) as (t1 & Ht1 & HP1 & Hf1 & Hn1).
  destruct (m w) as [[a|e|] w1]; cbn [fst snd] in *; [| |congruence].
  - destruct (Hk a w1) as (o & w2 & E & H). rewrite E. eexists _, _. split; [reflexivity|].
    destruct o as [[]|e|]; [| |contradiction].
    + destruct H as (r & pre & t & G & St & Ht & Hpre & HP & Hf & Hsv).
      exists r, (t1 ++ pre)%list, t. rewrite Ht, Ht1, <- !app_assoc.
      repeat split; auto. apply Forall_app; auto.
    + destruct H as (t & Ht & HP & Hf).
      exists (t1 ++ t)%list. rewrite Ht, Ht1, Hf, Hf1, replay_app, <- app_assoc.
      repeat split; auto. apply Forall_app; auto.
  - eexists _, _. split; [reflexivity|]. exists t1. auto.
Qed.

Lemma emits_event_new : emits is_setup event_new.
Proof.
  intros w. exists [EvEventNew]. cbn. repeat split; auto; try discriminate.
  repeat constructor.
Qed.

Lemma query_bee_api_spec (swarmhash : string) :
  query_spec env swarmhash (query_bee_api env swarmhash).
Proof.
  unfold query_bee_api.
  apply query_spec_bind;
    [apply (emits_weaken is_io); [apply io_is_setup | apply emits_download_latest_bee]|].
  intros bee_path. apply query_spec_bind.
  { unfold path_exists_m. repeat emits_step. }
  intros ex. destruct (negb ex); [apply query_spec_raise|].
  apply query_spec_bind; [apply emits_event_new|intros _].
  apply query_spec_bind; [unfold thread_start; repeat emits_step|intros _].
  apply query_spec_bind; [|intros _; apply query_spec_tail].
  apply (emits_weaken is_probe); [apply probe_is_setup|].
  apply emits_wait_for_bee; unfold max_retries; lia.
Qed.

End Runs.

(** ** The readiness probe *)

(** C2.  Against a target that never accepts (every attempt times out or is
    refused) the probe makes exactly 30 attempts, each with a timeout of one
    second and a sleep of one second after each but the last, and raises the
    start-up error; against a target that first accepts the N-th attempt,
    N <= 30, it returns after exactly N attempts, with no sleep after the
    one that succeeds. *)
Theorem readiness_probe_attempts (env : Env) (w : World) :
  ((forall k, k < 30 -> refuses (connect_result env (w_connects w + k))) ->
   wait_for_bee env max_retries 0 w =
   (Raised (mkExc RuntimeError "Bee node failed to start after 30 retries."),
    mkWorld (w_trace w ++ failed_attempts 29 ++ [probe_attempt])%list
            (w_stop_flag w) (w_connects w + 30)))
  /\ (forall N, 1 <= N <= 30 ->
      (forall k, k < N - 1 -> refuses (connect_result env (w_connects w + k))) ->
      connect_result env (w_connects w + (N - 1)) = Connected ->
      wait_for_bee env max_retries 0 w =
      (Returned tt,
       mkWorld (w_trace w ++ failed_attempts (N - 1) ++ [probe_attempt])%list
               (w_stop_flag w) (w_connects w + N)))
  /\ (forall n, count_connects (failed_attempts n ++ [probe_attempt]) = S n
                /\ count_sleeps (failed_attempts n ++ [probe_attempt]) = n).
Proof.
  split; [|split].
  - intros H. apply (wait_gives_up env 29); unfold max_retries; try lia.
    intros k Hk. apply H. lia.
  - intros N HN Hfail Hok.
    replace (w_connects w + N) with (w_connects w + S (N - 1)) by lia.
    apply wait_accepts; unfold max_retries; try lia; assumption.
  - apply count_failed_attempts.
Qed.

Lemma readiness_probe_attempts_witness :
  wait_for_bee Sample.never_ready max_retries 0 world0 =
  (Raised (mkExc RuntimeError "Bee node failed to start after 30 retries."),
   mkWorld ([] ++ failed_attempts 29 ++ [probe_attempt])%list false (0 + 30))
  /\ wait_for_bee Sample.served max_retries 0 world0 =
     (Returned tt,
      mkWorld ([] ++ failed_attempts (3 - 1) ++ [probe_attempt])%list false (0 + 3)).
Proof.
  split.
  - apply (proj1 (readiness_probe_attempts Sample.never_ready world0)).
    intros k _. right. reflexivity.
  - apply (proj1 (proj2 (readiness_probe_attempts Sample.served world0)) 3).
    + lia.
    + intros [|[|k]] Hk; [right; reflexivity | right; reflexivity | cbn in Hk; lia].
    + reflexivity.
Defined.

(** ** The output file name *)

Lemma retrieve_opens (env : Env) (swarmhash : string) (w : World) (r : Response) :
  requests_get env (bee_url swarmhash) = inr r ->
  resp_status_error r = None ->
  exists t,
    w_trace (snd (retrieve env swarmhash w)) =
    (w_trace w ++ EvHttpGet (bee_url swarmhash)
       :: EvOpen (output_filename (resp_content_disposition r) swarmhash) :: t)%list.
Proof.
  intros G St.
  set (fn := output_filename (resp_content_disposition r) swarmhash).
  set (w1 := mkWorld (w_trace w ++ [EvHttpGet (bee_url swarmhash)])%list
                     (w_stop_flag w) (w_connects w)).
  assert (E : retrieve env swarmhash w =
              try_except (save_stream env fn r ;;;
                          print ("Downloaded file: " ++ fn) ;;; stop_flag_set)
                [([RequestException], fun e =>
                    raise RuntimeError
                      ("Failed to download file using Bee API: " ++ exc_msg e))] w1).
  { unfold retrieve, try_except. fold (bee_url swarmhash).
    unfold bind at 1. unfold requests_get_m. unfold bind at 1. unfold emit at 1.
    rewrite G. unfold ret at 1. unfold bind at 1. unfold raise_for_status.
    rewrite St. reflexivity. }
  rewrite E. unfold try_except, bind at 1.
  destruct (save_stream_opens env fn r w1) as (t & Ht & HP & Hf & Hn).
  destruct (save_stream env fn r w1) as [[[]|e|] w2]; cbn [fst snd] in *.
  - exists (t ++ [EvPrint ("Downloaded file: " ++ fn); EvFlag FlagSet])%list.
    unfold print, stop_flag_set, flag_write, emit, bind. cbn [snd w_trace].
    rewrite Ht. subst w1. cbn [w_trace]. rewrite <- !app_assoc. reflexivity.
  - exists t. cbn [dispatch].
    destruct (catches [RequestException] e); cbn [snd raise]; rewrite Ht; subst w1;
      cbn [w_trace]; rewrite <- app_assoc; reflexivity.
  - congruence.
Qed.

(** The token opened by the leftmost occurrence of the literal is the
    leftmost token, when its content holds no line feed. *)
Lemma leftmost_by_find (pre tok post : string) :
  Re.find_lit (pre ++ Re.filename_lit ++ tok ++ dq ++ post) = Some (String.length pre) ->
  token_content tok ->
  leftmost_token (pre ++ Re.filename_lit ++ tok ++ dq ++ post) pre tok post.
Proof.
  intros Hf Ht. split; [reflexivity | split; [exact Ht|]].
  intros a g b E _.
  destruct (ReFacts.find_lit_least a (g ++ dq ++ b)) as (n & Hn & Hle).
  rewrite <- E, Hf in Hn. inversion Hn; subst n. exact Hle.
Qed.

Lemma output_filename_leftmost (cd pre tok post swarmhash : string) :
  leftmost_token cd pre tok post ->
  output_filename (Some cd) swarmhash
  = if truthy tok then tok else fallback_filename swarmhash.
Proof.
  intros (-> & (Hd & Hl) & Hmin).
  unfold output_filename, header_filename.
  destruct (truthy (pre ++ Re.filename_lit ++ tok ++ dq ++ post)) eqn:T.
  - rewrite (ReFacts.search_first_clean pre tok post Hd Hl); [reflexivity|].
    intros a g b E Hgd Hgl. apply (Hmin a g b E). now split.
  - apply ReFacts.truthy_false in T. destruct pre; discriminate.
Qed.

Lemma output_filename_no_token (cd swarmhash : string) :
  (~ exists pre tok post,
       cd = pre ++ Re.filename_lit ++ tok ++ dq ++ post /\ token_content tok) ->
  output_filename (Some cd) swarmhash = fallback_filename swarmhash.
Proof.
  intros H. unfold output_filename, header_filename.
  destruct (truthy cd); [|reflexivity].
  destruct (Re.search cd) as [g|] eqn:S; [|reflexivity].
  exfalso. apply H. destruct (ReFacts.search_sound _ _ S) as (pre & post & E & Hd & Hl).
  exists pre, g, post. now repeat split.
Qed.

(** C5, as amended.  The name of the output file is decided by the leftmost
    quoted token filename=Q...Q of the header (Q the double quote), among
    the tokens whose content, which runs up to the next double quote, holds
    no line feed: the file is named by that content when it is not empty,
    and by downloaded_file_{swarmhash}.dat when it is empty, even if a later
    token is not.  A header without such a token, and an absent header,
    give downloaded_file_{swarmhash}.dat.  The header of the example names
    the file report.dat.  That name is the one the retrieval opens for
    writing. *)
Theorem output_file_named_by_leftmost_token (swarmhash : string) :
  (forall cd pre tok post,
      leftmost_token cd pre tok post ->
      output_filename (Some cd) swarmhash
      = if truthy tok then tok else "downloaded_file_" ++ swarmhash ++ ".dat")
  /\ (forall cd,
         (~ exists pre tok post,
              cd = pre ++ Re.filename_lit ++ tok ++ dq ++ post /\ token_content tok) ->
         output_filename (Some cd) swarmhash = "downloaded_file_" ++ swarmhash ++ ".dat")
  /\ output_filename (Some ("attachment; filename=" ++ dq ++ "report.dat" ++ dq)) swarmhash
     = "report.dat"
  /\ output_filename
       (Some ("attachment; filename=" ++ dq ++ dq ++ "; filename=" ++ dq ++ "x.dat" ++ dq))
       swarmhash
     = "downloaded_file_" ++ swarmhash ++ ".dat"
  /\ output_filename None swarmhash = "downloaded_file_" ++ swarmhash ++ ".dat"
  /\ (forall env w r,
         requests_get env (bee_url swarmhash) = inr r ->
         resp_status_error r = None ->
         exists t,
           w_trace (snd (retrieve env swarmhash w)) =
           (w_trace w ++ EvHttpGet (bee_url swarmhash)
              :: EvOpen (output_filename (resp_content_disposition r) swarmhash) :: t)%list).
Proof.
  split; [|split; [|split; [|split; [|split]]]].
  - intros cd pre tok post. apply output_filename_leftmost.
  - intros cd. apply output_filename_no_token.
  - reflexivity.
  - reflexivity.
  - reflexivity.
  - intros env w r. apply retrieve_opens.
Qed.

Lemma output_file_named_by_leftmost_token_witness :
  output_filename
    (Some ("attachment; " ++ Re.filename_lit ++ "report.dat" ++ dq ++ "; size=5")) "abc123"
  = "report.dat".
Proof.
  apply (proj1 (output_file_named_by_leftmost_token "abc123")
               ("attachment; " ++ Re.filename_lit ++ "report.dat" ++ dq ++ "; size=5")
               "attachment; " "report.dat" "; size=5").
  apply leftmost_by_find.
  - reflexivity.
  - split; reflexivity.
Defined.

(** C5 fails as it is written: the header [attachment; filename=QQ] holds a
    quoted token, whose content is empty, and the output file is named by
    the fallback, not by the token. *)
Lemma empty_token_falls_back :
  ~ named_by_quoted_token ("attachment; filename=" ++ dq ++ dq) "abc123".
Proof.
  intros H. specialize (H "attachment; " EmptyString EmptyString).
  vm_compute in H. specialize (H eq_refl eq_refl eq_refl). discriminate.
Qed.

(** ** The release locator *)

Lemma fetch_release_run (env : Env) (w : World) :
  fetch_release env w =
  (match requests_get env releases_url with
   | inl msg =>
       Raised (mkExc RuntimeError ("Failed to download latest Bee release: " ++ msg))
   | inr r =>
       match resp_status_error r with
       | Some msg =>
           Raised (mkExc RuntimeError ("Failed to download latest Bee release: " ++ msg))
       | None => Returned r
       end
   end, after w [EvHttpGet releases_url]).
Proof.
  unfold fetch_release. cbv beta iota delta [try_except requests_get_m bind emit].
  destruct (requests_get env releases_url) as [msg|r]; [reflexivity|].
  cbv beta iota delta [ret raise_for_status].
  destruct (resp_status_error r); reflexivity.
Qed.

(** Lines 43-66 call nothing outside the program. *)
Lemma locate_asset_pure (env : Env) (r : Response) (w : World) :
  snd (locate_asset env r w) = w.
Proof.
  unfold locate_asset, bind, lift.
  destruct (response_json r) as [e|data]; [reflexivity|].
  destruct (json_get data "assets" (JArr [])) as [e|assets]; [reflexivity|].
  cbv zeta. destruct (json_iter assets) as [e|items]; [reflexivity|].
  destruct (select_download_url items _ _) as [e|[u|]]; [reflexivity| |reflexivity].
  destruct (json_truthy u); reflexivity.
Qed.

(** The metadata request and what follows it. *)
Lemma download_latest_bee_begins (env : Env) (w : World) :
  exists t,
    w_trace (snd (download_latest_bee env w)) = (w_trace w ++ EvHttpGet releases_url :: t)%list.
Proof.
  unfold download_latest_bee, bind. rewrite fetch_release_run.
  set (w1 := after w [EvHttpGet releases_url]).
  assert (E : forall t, (w_trace w1 ++ t = w_trace w ++ EvHttpGet releases_url :: t)%list)
    by (intros t; subst w1; cbn [after w_trace]; now rewrite <- app_assoc).
  assert (N : exists t, w_trace w1 = (w_trace w ++ EvHttpGet releases_url :: t)%list)
    by (exists []; reflexivity).
  destruct (requests_get env releases_url) as [msg|r]; [exact N|].
  destruct (resp_status_error r); [exact N|].
  pose proof (locate_asset_pure env r w1) as L.
  destruct (locate_asset env r w1) as [[u| |] w2]; cbn [snd] in L; subst w2; try exact N.
  destruct (emits_install_asset env u w1) as (t & Ht & _).
  exists t. rewrite Ht. apply E.
Qed.

Lemma filename_map_entries (os arch f : string) :
  dict_get filename_map (os, arch) = Some f <->
  (os = "linux" /\ arch = "x86_64" /\ f = "bee-linux-amd64")
  \/ (os = "linux" /\ arch = "arm64" /\ f = "bee-linux-arm64")
  \/ (os = "darwin" /\ arch = "x86_64" /\ f = "bee-darwin-amd64")
  \/ (os = "darwin" /\ arch = "arm64" /\ f = "bee-darwin-arm64")
  \/ (os = "windows" /\ arch = "x86_64" /\ f = "bee-windows-amd64.exe").
Proof.
  cbn [dict_get filename_map fst snd]. split.
  - repeat match goal with
           | |- context [String.eqb ?a ?b] =>
               destruct (String.eqb_spec a b); cbn [andb]
           end;
      intros H; inversion H; subst; tauto.
  - intros H.
    repeat destruct H as [H|H]; destruct H as (-> & -> & ->); reflexivity.
Qed.

(** The loop passes over the assets whose name does not compare equal to
    the mapped one. *)
Lemma select_skip (pre rest : list Json) (os_name arch : string) :
  (forall b, In b pre ->
             exists v, has_name b v
                       /\ json_eq_opt v (dict_get filename_map (os_name, arch)) = false) ->
  select_download_url (pre ++ rest)%list os_name arch
  = select_download_url rest os_name arch.
Proof.
  induction pre as [|b pre IH]; intros H; [reflexivity|].
  destruct (H b (or_introl eq_refl)) as (v & (fields & -> & Hn) & Hv).
  cbn [app select_download_url json_getitem]. rewrite Hn, Hv.
  apply IH. intros c Hc. apply H. now right.
Qed.

(** It stops at the first asset whose name does. *)
Lemma select_hit (fields : list (string * Json)) (v u : Json) (rest : list Json)
      (os_name arch : string) :
  obj_get fields "name" = Some v ->
  json_eq_opt v (dict_get filename_map (os_name, arch)) = true ->
  obj_get fields "browser_download_url" = Some u ->
  select_download_url (JObj fields :: rest) os_name arch = inr (Some u).
Proof.
  intros Hn Hv Hu. cbn [select_download_url json_getitem]. now rewrite Hn, Hv, Hu.
Qed.

Lemma select_none (assets : list Json) (os_name arch : string) :
  (forall a, In a assets ->
             exists v, has_name a v
                       /\ json_eq_opt v (dict_get filename_map (os_name, arch)) = false) ->
  select_download_url assets os_name arch = inr None.
Proof.
  intros H. rewrite <- (app_nil_r assets). now rewrite select_skip.
Qed.

Lemma named_otherwise (a : Json) (target : option string) :
  (exists s, has_name a (JStr s) /\ target <> Some s) ->
  exists v, has_name a v /\ json_eq_opt v target = false.
Proof.
  intros (s & Hn & Hs). exists (JStr s). split; [exact Hn|].
  destruct target as [f|]; [|reflexivity]. cbn [json_eq_opt].
  destruct (String.eqb_spec s f) as [->|]; [now elim Hs | reflexivity].
Qed.

(** The run of the locator up to the loop of lines 59-63, on metadata in
    which the assets can be listed. *)
Lemma download_latest_bee_selects (env : Env) (w : World) (r : Response)
      (data assets : Json) (items : list Json) :
  requests_get env releases_url = inr r ->
  resp_status_error r = None ->
  resp_json r = inr data ->
  json_get data "assets" (JArr []) = inr assets ->
  json_iter assets = inr items ->
  download_latest_bee env w =
  match select_download_url items (lower (platform_system env)) (platform_machine env) with
  | inl e => (Raised e, after w [EvHttpGet releases_url])
  | inr (Some u) =>
      if json_truthy u then install_asset env u (after w [EvHttpGet releases_url])
      else (Raised (not_found_error env), after w [EvHttpGet releases_url])
  | inr None => (Raised (not_found_error env), after w [EvHttpGet releases_url])
  end.
Proof.
  intros G St J A I. unfold download_latest_bee.
  unfold bind at 1. rewrite fetch_release_run, G, St.
  unfold bind at 1. unfold locate_asset, response_json. rewrite J.
  cbv beta iota zeta delta [bind lift]. rewrite A, I.
  destruct (select_download_url items _ _) as [e|[u|]]; [reflexivity| |reflexivity].
  destruct (json_truthy u); reflexivity.
Qed.

Lemma download_latest_bee_unsupported (env : Env) (w : World) (r : Response)
      (data assets : Json) (items : list Json) :
  requests_get env releases_url = inr r ->
  resp_status_error r = None ->
  resp_json r = inr data ->
  json_get data "assets" (JArr []) = inr assets ->
  json_iter assets = inr items ->
  (forall a, In a items -> exists s, has_name a (JStr s) /\ mapped_name env <> Some s) ->
  download_latest_bee env w = (Raised (not_found_error env), after w [EvHttpGet releases_url]).
Proof.
  intros G St J A I H.
  rewrite (download_latest_bee_selects env w r data assets items G St J A I).
  rewrite select_none; [reflexivity|].
  intros a Ha. apply named_otherwise, H, Ha.
Qed.

(** A body that is not JSON: the error of [response.json()] (line 43) is
    what leaves the locator. *)
Lemma download_latest_bee_not_json (env : Env) (w : World) (r : Response) (msg : string) :
  requests_get env releases_url = inr r ->
  resp_status_error r = None ->
  resp_json r = inl msg ->
  download_latest_bee env w =
  (Raised (mkExc JSONDecodeError msg), after w [EvHttpGet releases_url]).
Proof.
  intros G St J. unfold download_latest_bee.
  unfold bind at 1. rewrite fetch_release_run, G, St.
  unfold bind at 1. unfold locate_asset, response_json. rewrite J. reflexivity.
Qed.

(** The first [os.makedirs] (line 77) is outside every [try]: its error
    leaves [install_asset] as it is. *)
Lemma install_asset_makedirs_fails (env : Env) (u : Json) (w : World) (msg : string) :
  truthy (download_dir env) = true ->
  download_dir_exists env (download_dir env) = false ->
  makedirs_fails env (download_dir env) = Some msg ->
  install_asset env u w =
  (Raised (mkExc OSError msg),
   after w [EvPathExists (download_dir env); EvMakedirs (download_dir env) false]).
Proof.
  intros T X F. unfold install_asset. cbv zeta. fold (download_dir env). rewrite T.
  unfold bind at 1. unfold bind at 1. unfold path_exists_m, bind, emit, ret.
  rewrite X. cbn [negb]. unfold makedirs, bind, emit.
  cbn [w_trace w_stop_flag w_connects]. rewrite F. cbn [fail_if raise].
  unfold after. rewrite <- app_assoc. reflexivity.
Qed.

(** The second one (line 88) is inside the [try]: its error is converted
    by the handler of lines 95-96. *)
Lemma install_asset_makedirs_exist_ok_fails (env : Env) (url : string) (w : World)
      (r : Response) (msg : string) :
  truthy (download_dir env) = true ->
  download_dir_exists env (download_dir env) = true ->
  requests_get env url = inr r ->
  resp_status_error r = None ->
  makedirs_exist_ok_fails env
    (os_path_dirname env (os_path_join env (download_dir env) (os_path_basename env url)))
  = Some msg ->
  install_asset env (JStr url) w =
  (Raised (mkExc RuntimeError ("Failed to create directory structure: " ++ msg)),
   after w [EvPathExists (download_dir env); EvHttpGet url;
            EvMakedirs (os_path_dirname env
                          (os_path_join env (download_dir env) (os_path_basename env url)))
                       true]).
Proof.
  intros T X G St F. unfold install_asset. cbv zeta. fold (download_dir env). rewrite T.
  unfold bind at 1. unfold bind at 1. unfold path_exists_m, bind, emit, ret.
  rewrite X. cbn [negb lift fspath]. unfold try_except, requests_get_m, bind, emit.
  cbn [w_trace w_stop_flag w_connects]. rewrite G. unfold ret, raise_for_status.
  rewrite St. cbn [fail_if]. unfold ret, makedirs_exist_ok, bind, emit.
  cbn [w_trace w_stop_flag w_connects]. rewrite F.
  cbn [fail_if raise dispatch catches existsb exc_class issubclass class_eqb orb exc_msg].
  unfold raise, after. rewrite <- !app_assoc. reflexivity.
Qed.

(** C6, on the code.  The metadata is requested first, whatever follows,
    and the table of asset names has exactly the five entries of the
    specification.  When every asset of the metadata is an object whose name
    is a string, a platform that is not in the table, or metadata without an
    asset of the mapped name, makes the locator fail with its not-found
    error after that single request.  But for a platform that is not in the
    table the right operand of the comparison of line 61 is [None], which
    an asset whose name is [null] equals: the loop selects that asset, and
    in the run below the machine is a 64-bit ARM under Linux, absent from
    the table, and the locator requests the asset, saves it and returns its
    path.  And a body that is not JSON leaves the locator with the error of
    line 43, not the not-found error. *)
Theorem unsupported_platform_downloads_unnamed_asset :
  (forall env w, exists t,
      w_trace (snd (download_latest_bee env w))
      = (w_trace w ++ EvHttpGet releases_url :: t)%list)
  /\ (forall os arch f,
         dict_get filename_map (os, arch) = Some f <->
         (os = "linux" /\ arch = "x86_64" /\ f = "bee-linux-amd64")
         \/ (os = "linux" /\ arch = "arm64" /\ f = "bee-linux-arm64")
         \/ (os = "darwin" /\ arch = "x86_64" /\ f = "bee-darwin-amd64")
         \/ (os = "darwin" /\ arch = "arm64" /\ f = "bee-darwin-arm64")
         \/ (os = "windows" /\ arch = "x86_64" /\ f = "bee-windows-amd64.exe"))
  /\ (forall env w r data assets items,
         requests_get env releases_url = inr r ->
         resp_status_error r = None ->
         resp_json r = inr data ->
         json_get data "assets" (JArr []) = inr assets ->
         json_iter assets = inr items ->
         (forall a, In a items ->
                    exists s, has_name a (JStr s) /\ mapped_name env <> Some s) ->
         download_latest_bee env w =
         (Raised (not_found_error env), after w [EvHttpGet releases_url]))
  /\ (forall os_name arch pre fields u post,
         dict_get filename_map (os_name, arch) = None ->
         (forall b, In b pre -> exists s, has_name b (JStr s)) ->
         obj_get fields "name" = Some JNull ->
         obj_get fields "browser_download_url" = Some u ->
         select_download_url (pre ++ JObj fields :: post)%list os_name arch
         = inr (Some u))
  /\ mapped_name Sample.unnamed_release = None
  /\ download_latest_bee Sample.unnamed_release world0 =
     (Returned "/home/u/.local/bin/bee-linux-amd64",
      mkWorld [EvHttpGet releases_url;
               EvPathExists "/home/u/.local/bin";
               EvHttpGet "https://example.org/dl/bee-linux-amd64";
               EvMakedirs "/home/u/.local/bin" true;
               EvOpen "/home/u/.local/bin/bee-linux-amd64";
               EvWrite "/home/u/.local/bin/bee-linux-amd64" "ELF";
               EvClose "/home/u/.local/bin/bee-linux-amd64";
               EvChmod "/home/u/.local/bin/bee-linux-amd64" 493] false 0)
  /\ (forall env w r msg,
         requests_get env releases_url = inr r ->
         resp_status_error r = None ->
         resp_json r = inl msg ->
         download_latest_bee env w =
         (Raised (mkExc JSONDecodeError msg), after w [EvHttpGet releases_url])).
Proof.
  split; [exact download_latest_bee_begins|].
  split; [exact filename_map_entries|].
  split; [exact download_latest_bee_unsupported|].
  split; [|split; [reflexivity | split; [reflexivity | exact download_latest_bee_not_json]]].
  intros os_name arch pre fields u post D Hpre Hn Hu.
  rewrite select_skip.
  - apply (select_hit fields JNull); [exact Hn | now rewrite D | exact Hu].
  - intros b Hb. destruct (Hpre b Hb) as (s & Hs).
    exists (JStr s). split; [exact Hs | now rewrite D].
Qed.

(** C10.  When several assets carry the mapped name, the loop over the
    assets selects the download address of the first of them in the order
    of the list, whatever comes after it.  The assets before it are objects
    with another name; the one selected is an object with the mapped name
    [f], and [u] is its download address. *)
Theorem first_matching_asset_selected
        (pre post : list Json) (fields : list (string * Json)) (f : string) (u : Json)
        (os_name arch : string) :
  dict_get filename_map (os_name, arch) = Some f ->
  (forall b, In b pre -> exists v, has_name b v /\ v <> JStr f) ->
  obj_get fields "name" = Some (JStr f) ->
  obj_get fields "browser_download_url" = Some u ->
  select_download_url (pre ++ JObj fields :: post)%list os_name arch = inr (Some u).
Proof.
  intros D Hpre Hn Hu. rewrite select_skip.
  - apply (select_hit fields (JStr f)); [exact Hn | | exact Hu].
    rewrite D. cbn [json_eq_opt]. apply String.eqb_refl.
  - intros b Hb. destruct (Hpre b Hb) as (v & Hv & Hne).
    exists v. split; [exact Hv|]. rewrite D.
    destruct v; cbn [json_eq_opt]; try reflexivity.
    destruct (String.eqb_spec s f) as [->|]; [now elim Hne | reflexivity].
Qed.

Lemma first_matching_asset_selected_witness :
  select_download_url
    ([Sample.darwin_asset] ++ Sample.linux_asset :: [Sample.linux_mirror])%list
    "linux" "x86_64"
  = inr (Some (JStr "https://example.org/dl/bee-linux-amd64")).
Proof.
  apply (first_matching_asset_selected _ _ _ "bee-linux-amd64").
  - reflexivity.
  - intros b [<-|[]]. eexists. split; [eexists; split; reflexivity | discriminate].
  - reflexivity.
  - reflexivity.
Defined.
(** ** The command line *)

Lemma stdout_of_app (a b : list Event) :
  stdout_of (a ++ b) = (stdout_of a ++ stdout_of b)%list.
Proof.
  induction a as [|e a IH]; [reflexivity|].
  destruct e; cbn [app stdout_of]; rewrite IH; reflexivity.
Qed.

Lemma stdout_of_setup (t : list Event) : Forall is_setup t -> stdout_of t = [].
Proof.
  induction 1 as [|e t He _ IH]; [reflexivity|].
  destruct e; cbn in He; try contradiction; exact IH.
Qed.

Lemma not_in_setup (t : list Event) (e : Event) :
  ~ is_setup e -> Forall is_setup t -> ~ In e t.
Proof.
  intros He Ht Hin. rewrite Forall_forall in Ht. exact (He (Ht _ Hin)).
Qed.

(** What [main] adds to a run of [query_bee_api]. *)
Lemma main_cases (env : Env) (swarmhash : string) (w : World) :
  match query_bee_api env swarmhash w with
  | (Raised e, w') =>
      main env swarmhash w =
      match exc_class e with
      | RuntimeError =>
          (Returned tt,
           mkWorld (w_trace w' ++ [EvPrint ("Error: " ++ exc_msg e)])%list
                   (w_stop_flag w') (w_connects w'))
      | _ => (Raised e, w')
      end
  | (o, w') => main env swarmhash w = (o, w')
  end.
Proof.
  unfold main, try_except.
  destruct (query_bee_api env swarmhash w) as [[[]|[c msg]|] w']; try reflexivity.
  destruct c; reflexivity.
Qed.

(** What the command line does with a failure that reaches it as a
    [RuntimeError], and with a success. *)
Lemma cli_reports_runtime_errors (env : Env) (swarmhash : string) :
  (forall msg w',
      query_bee_api env swarmhash world0 = (Raised (mkExc RuntimeError msg), w') ->
      stdout_of (w_trace (snd (main env swarmhash world0))) = ["Error: " ++ msg]
      /\ exit_status (fst (main env swarmhash world0)) = Some 0)
  /\ (forall w',
      query_bee_api env swarmhash world0 = (Returned tt, w') ->
      exists r,
        requests_get env (bee_url swarmhash) = inr r
        /\ stdout_of (w_trace (snd (main env swarmhash world0)))
           = ["Downloaded file: " ++ output_filename (resp_content_disposition r) swarmhash]
        /\ exit_status (fst (main env swarmhash world0)) = Some 0)
  /\ fst (main env swarmhash world0) <> OutOfFuel.
Proof.
  pose proof (main_cases env swarmhash world0) as M.
  destruct (query_bee_api_spec env swarmhash world0) as (o & w1 & E & H).
  rewrite E in M. split; [|split].
  - intros msg w' Q. rewrite E in Q. inversion Q; subst. cbn [exc_class exc_msg] in M.
    rewrite M. cbn [fst snd w_trace]. split; [|reflexivity].
    destruct H as (t & Ht & HP & _). rewrite Ht, stdout_of_app.
    cbn [w_trace world0 app]. rewrite (stdout_of_setup t HP). reflexivity.
  - intros w' Q. rewrite E in Q. inversion Q; subst. rewrite M.
    destruct H as (r & pre & t & G & St & Ht & Hpre & HP & Hf & Hsv).
    exists r. repeat split; auto. cbn [snd]. rewrite Ht.
    cbn [w_trace world0 app]. rewrite stdout_of_app. cbn [stdout_of].
    rewrite stdout_of_app, (stdout_of_setup pre Hpre).
    rewrite (stdout_of_setup t) by (eapply Forall_impl; [apply io_is_setup | exact HP]).
    reflexivity.
  - destruct o as [[]|[c msg]|]; [| |contradiction].
    + rewrite M. discriminate.
    + destruct c; cbn [exc_class] in M; rewrite M; discriminate.
Qed.

(** An exception of another class is not caught by the command line: it
    ends the program, nothing having been printed on standard output. *)
Lemma cli_misses_other_errors (env : Env) (swarmhash : string) (e : Exc) (w' : World) :
  query_bee_api env swarmhash world0 = (Raised e, w') ->
  exc_class e <> RuntimeError ->
  main env swarmhash world0 = (Raised e, w')
  /\ stdout_of (w_trace w') = []
  /\ exit_status (fst (main env swarmhash world0)) = Some 1.
Proof.
  intros Q Hc.
  pose proof (main_cases env swarmhash world0) as M.
  destruct (query_bee_api_spec env swarmhash world0) as (o & w1 & E & H).
  rewrite Q in E. inversion E; subst o w1. clear E. rewrite Q in M.
  assert (M' : main env swarmhash world0 = (Raised e, w'))
    by (destruct e as [[] msg]; cbn [exc_class] in *; congruence).
  rewrite M'. split; [reflexivity | split; [|reflexivity]].
  destruct H as (t & Ht & HP & _). rewrite Ht. cbn [world0 w_trace app].
  apply stdout_of_setup, HP.
Qed.

(** C7, on the code.  A failure that reaches the command line as a
    [RuntimeError] is reported as the single line [Error: message] with the
    exit status 0, and a success as [Downloaded file: filename].  A failure
    to create the directory of the binary is converted into a
    [RuntimeError] when it comes from the second [os.makedirs] (line 88,
    inside the [try] whose handler of lines 95-96 is there for the errors
    of the directory creation), but not when it comes from the first
    (line 77, outside every [try]): that [OSError] leaves
    [download_latest_bee], [query_bee_api] and the command line, nothing is
    printed on standard output and the exit status is 1.  The two runs
    below are a home directory in which the install directory cannot be
    created, once by each call. *)
Theorem uncaught_makedirs_error_is_not_reported :
  (forall env u w msg,
      truthy (download_dir env) = true ->
      download_dir_exists env (download_dir env) = false ->
      makedirs_fails env (download_dir env) = Some msg ->
      install_asset env u w =
      (Raised (mkExc OSError msg),
       after w [EvPathExists (download_dir env); EvMakedirs (download_dir env) false]))
  /\ (forall env url w r msg,
         truthy (download_dir env) = true ->
         download_dir_exists env (download_dir env) = true ->
         requests_get env url = inr r ->
         resp_status_error r = None ->
         makedirs_exist_ok_fails env
           (os_path_dirname env
              (os_path_join env (download_dir env) (os_path_basename env url)))
         = Some msg ->
         fst (install_asset env (JStr url) w)
         = Raised (mkExc RuntimeError ("Failed to create directory structure: " ++ msg)))
  /\ (forall env swarmhash e w',
         query_bee_api env swarmhash world0 = (Raised e, w') ->
         exc_class e <> RuntimeError ->
         main env swarmhash world0 = (Raised e, w')
         /\ stdout_of (w_trace w') = []
         /\ exit_status (fst (main env swarmhash world0)) = Some 1)
  /\ main Sample.unwritable_home "abc123" world0
     = (Raised (mkExc OSError "[Errno 13] Permission denied: '/home/u/.local'"),
        mkWorld [EvHttpGet releases_url;
                 EvPathExists "/home/u/.local/bin";
                 EvMakedirs "/home/u/.local/bin" false] false 0)
  /\ ~ cli_reports_every_failure Sample.unwritable_home "abc123"
  /\ stdout_of (w_trace (snd (main Sample.unwritable_bin "abc123" world0)))
     = ["Error: Failed to create directory structure: "
        ++ "[Errno 13] Permission denied: '/home/u/.local/bin'"]
  /\ exit_status (fst (main Sample.unwritable_bin "abc123" world0)) = Some 0
  /\ (forall env swarmhash,
         (forall msg w',
             query_bee_api env swarmhash world0 = (Raised (mkExc RuntimeError msg), w') ->
             stdout_of (w_trace (snd (main env swarmhash world0))) = ["Error: " ++ msg]
             /\ exit_status (fst (main env swarmhash world0)) = Some 0)
         /\ (forall w',
                query_bee_api env swarmhash world0 = (Returned tt, w') ->
                exists r,
                  requests_get env (bee_url swarmhash) = inr r
                  /\ stdout_of (w_trace (snd (main env swarmhash world0)))
                     = ["Downloaded file: "
                        ++ output_filename (resp_content_disposition r) swarmhash]
                  /\ exit_status (fst (main env swarmhash world0)) = Some 0)
         /\ fst (main env swarmhash world0) <> OutOfFuel).
Proof.
  split; [exact install_asset_makedirs_fails|].
  split.
  { intros env url w r msg T X G St F.
    now rewrite (install_asset_makedirs_exist_ok_fails env url w r msg T X G St F). }
  split; [exact cli_misses_other_errors|].
  split; [vm_compute; reflexivity|].
  split.
  { intros H.
    destruct (H (mkExc OSError "[Errno 13] Permission denied: '/home/u/.local'")
                (snd (query_bee_api Sample.unwritable_home "abc123" world0)))
      as [_ Hexit].
    - vm_compute. reflexivity.
    - vm_compute in Hexit. discriminate Hexit. }
  split; [vm_compute; reflexivity|].
  split; [vm_compute; reflexivity|].
  exact cli_reports_runtime_errors.
Qed.
(** ** The stop flag and the two threads *)

Lemma steps_trans (env : Env) (a b c : Sys) :
  steps env a b -> steps env b c -> steps env a c.
Proof.
  intros Hab Hbc. induction Hbc as [|s1 s2 s3 _ IH Hs]; [assumption|].
  eapply steps_next; [apply IH; assumption | exact Hs].
Qed.

(** The main thread makes the calls [t], the supervision thread stands by. *)
Lemma steps_main (env : Env) : forall t rest pc flag acts,
  steps env (mkSys (t ++ rest)%list pc flag acts)
            (mkSys rest (fold_left (fun p e => thread_after_event e p) t pc)
                   (replay t flag) acts).
Proof.
  induction t as [|e t IH]; intros rest pc flag acts; [apply steps_refl|].
  eapply steps_trans; [|apply IH].
  eapply steps_next; [apply steps_refl|]. apply step_main.
Qed.

(** The supervision thread never writes the flag. *)
Lemma thread_keeps_flag (env : Env) (pc pc' : ThreadPc) (flag : bool) (acts : list ThreadAct) :
  start_bee_node_step env pc flag = Some (pc', acts) ->
  fold_left (fun f a => flag_after_act a f) acts flag = flag
  /\ forall op, ~ In (ActFlag op) acts.
Proof.
  intros H. destruct pc; cbn in H; try discriminate.
  - destruct (popen_fails env (bee_command bee_path)); inversion H; subst;
      (split; [reflexivity | intros op [F|[]]; discriminate]).
  - destruct flag; inversion H; subst;
      (split; [reflexivity | cbn; intros op F; intuition discriminate]).
  - inversion H; subst. split; [reflexivity | intros op [F|[]]; discriminate].
  - destruct (process_exits env); inversion H; subst.
    split; [reflexivity | intros op [F|[]]; discriminate].
Qed.

Lemma flag_safe_setup (t rest : list Event) :
  Forall is_setup t -> flag_safe false rest -> flag_safe false (t ++ rest)%list.
Proof.
  induction 1 as [|e t He _ IH]; intros Hrest; [exact Hrest|].
  cbn [app flag_safe]. split; [discriminate|].
  replace (flag_after_event e false) with false
    by (destruct e; cbn in He; try contradiction; reflexivity).
  apply IH, Hrest.
Qed.

Lemma main_trace_safe (env : Env) (swarmhash : string) :
  flag_safe false (w_trace (snd (main env swarmhash world0))).
Proof.
  pose proof (main_cases env swarmhash world0) as M.
  destruct (query_bee_api_spec env swarmhash world0) as (o & w1 & E & H).
  rewrite E in M. destruct o as [[]|[c msg]|]; [| |contradiction].
  - rewrite M. destruct H as (r & pre & t & G & St & Ht & Hpre & HP & Hf & Hsv).
    cbn [snd]. rewrite Ht. cbn [world0 w_trace app].
    apply flag_safe_setup; [exact Hpre|].
    change (EvHttpGet (bee_url swarmhash)
              :: EvOpen (output_filename (resp_content_disposition r) swarmhash) :: t ++ ?x)%list
      with ([EvHttpGet (bee_url swarmhash);
             EvOpen (output_filename (resp_content_disposition r) swarmhash)] ++ t ++ x)%list.
    apply flag_safe_setup; [repeat constructor|].
    apply flag_safe_setup; [eapply Forall_impl; [apply io_is_setup | exact HP]|].
    cbn. tauto.
  - destruct H as (t & Ht & HP & Hf). cbn [world0 w_trace app] in Ht.
    destruct c; cbn [exc_class] in M; rewrite M; cbn [snd w_trace]; rewrite Ht;
      try (rewrite <- (app_nil_r t); apply flag_safe_setup; [exact HP | exact I]).
    apply flag_safe_setup; [exact HP|]. cbn. split; [discriminate | exact I].
Qed.

Lemma main_trace_no_clear (env : Env) (swarmhash : string) :
  Forall (fun e => e <> EvFlag FlagClear) (w_trace (snd (main env swarmhash world0))).
Proof.
  assert (S : forall t, Forall is_setup t -> Forall (fun e => e <> EvFlag FlagClear) t).
  { intros t. apply Forall_impl. intros e He ->. exact He. }
  pose proof (main_cases env swarmhash world0) as M.
  destruct (query_bee_api_spec env swarmhash world0) as (o & w1 & E & H).
  rewrite E in M. destruct o as [[]|[c msg]|]; [| |contradiction].
  - rewrite M. destruct H as (r & pre & t & G & St & Ht & Hpre & HP & Hf & Hsv).
    cbn [snd]. rewrite Ht. cbn [world0 w_trace app].
    apply Forall_app. split; [apply S, Hpre|].
    constructor; [discriminate|]. constructor; [discriminate|].
    apply Forall_app. split.
    + apply S. eapply Forall_impl; [apply io_is_setup | exact HP].
    + repeat constructor; discriminate.
  - destruct H as (t & Ht & HP & Hf). cbn [world0 w_trace app] in Ht.
    destruct c; cbn [exc_class] in M; rewrite M; cbn [snd w_trace]; rewrite Ht;
      try (apply S, HP).
    apply Forall_app. split; [apply S, HP | repeat constructor; discriminate].
Qed.

Lemma step_keeps_safe (env : Env) (s s' : Sys) :
  step env s s' ->
  flag_safe (sys_flag s) (sys_main s) ->
  flag_safe (sys_flag s') (sys_main s') /\ (sys_flag s = true -> sys_flag s' = true).
Proof.
  intros Hs Inv. destruct Hs as [e rest pc flag acts | todo pc flag acts pc' new Ht];
    cbn [sys_flag sys_main] in *.
  - destruct Inv as [H1 H2]. split; assumption.
  - destruct (thread_keeps_flag env pc pc' flag new Ht) as [-> _]. split; auto.
Qed.

Lemma steps_keep_safe (env : Env) (s s' : Sys) :
  steps env s s' ->
  flag_safe (sys_flag s) (sys_main s) ->
  flag_safe (sys_flag s') (sys_main s') /\ (sys_flag s = true -> sys_flag s' = true).
Proof.
  induction 1 as [|s1 s2 s3 _ IH Hs]; intros Inv; [auto|].
  destruct (IH Inv) as [Inv2 M2].
  destruct (step_keeps_safe env s2 s3 Hs Inv2) as [Inv3 M3]. auto.
Qed.

(** C8.  The stop flag starts unset; the main thread never clears it and
    the supervision thread never writes it; so along every interleaving of
    the two threads, once the flag is seen set it is set in every later
    state. *)
Theorem stop_flag_monotone (env : Env) (swarmhash : string) :
  sys_flag (sys_init env swarmhash) = false
  /\ Forall (fun e => e <> EvFlag FlagClear) (sys_main (sys_init env swarmhash))
  /\ (forall pc flag pc' acts,
         start_bee_node_step env pc flag = Some (pc', acts) ->
         forall op, ~ In (ActFlag op) acts)
  /\ (forall s s',
         steps env (sys_init env swarmhash) s ->
         steps env s s' ->
         sys_flag s = true -> sys_flag s' = true).
Proof.
  split; [reflexivity | split; [apply main_trace_no_clear | split]].
  - intros pc flag pc' acts H. apply (thread_keeps_flag env pc pc' flag acts H).
  - intros s s' H1 H2.
    destruct (steps_keep_safe env _ _ H1 (main_trace_safe env swarmhash)) as [Inv _].
    apply (steps_keep_safe env _ _ H2 Inv).
Qed.

Lemma stop_flag_monotone_witness :
  sys_flag (mkSys [] TPoll true
                  [ActPopen (bee_command "/home/u/.local/bin/bee-linux-amd64")]) = true.
Proof.
  apply (proj2 (proj2 (proj2 (stop_flag_monotone Sample.served "abc123")))
               (mkSys [] (TSpawn "/home/u/.local/bin/bee-linux-amd64") true [])).
  - unfold sys_init.
    rewrite <- (app_nil_r (w_trace (snd (main Sample.served "abc123" world0)))).
    apply (steps_main Sample.served
             (w_trace (snd (main Sample.served "abc123" world0))) [] TNotStarted false []).
  - eapply steps_next; [apply steps_refl|].
    apply (step_thread Sample.served [] (TSpawn "/home/u/.local/bin/bee-linux-amd64") true []
                       TPoll [ActPopen (bee_command "/home/u/.local/bin/bee-linux-amd64")]).
    reflexivity.
  - reflexivity.
Defined.

(** A run whose calls never write the flag leaves the supervision thread
    polling for ever: the child is never asked to terminate. *)
Lemma unset_flag_keeps_supervising (env : Env) (s s' : Sys) :
  steps env s s' ->
  sys_flag s = false -> Forall (fun e => ~ writes_flag e) (sys_main s) ->
  still_supervising (sys_thread s) -> ~ In ActTerminate (sys_acts s) ->
  sys_flag s' = false /\ Forall (fun e => ~ writes_flag e) (sys_main s')
  /\ still_supervising (sys_thread s') /\ ~ In ActTerminate (sys_acts s').
Proof.
  induction 1 as [|s1 s2 s3 _ IH Hs]; intros Hf Hm Hp Ha; [auto|].
  destruct (IH Hf Hm Hp Ha) as (Hf2 & Hm2 & Hp2 & Ha2). clear IH Hf Hm Hp Ha.
  destruct Hs as [e rest pc flag acts | todo pc flag acts pc' new Ht];
    cbn [sys_flag sys_main sys_thread sys_acts] in *; subst.
  - inversion Hm2; subst. repeat split; auto.
    + destruct e; cbn in *; try reflexivity. tauto.
    + destruct e; cbn; auto.
  - destruct (thread_keeps_flag env pc pc' false new Ht) as [-> _].
    repeat split; auto.
    + destruct pc; cbn in Ht, Hp2; try discriminate; try contradiction.
      * destruct (popen_fails env (bee_command bee_path)); inversion Ht; exact I.
      * inversion Ht; exact I.
    + intros Hin. apply in_app_or in Hin. destruct Hin as [Hin|Hin]; [auto|].
      destruct pc; cbn in Ht, Hp2; try discriminate; try contradiction.
      * destruct (popen_fails env (bee_command bee_path)); inversion Ht; subst;
          destruct Hin as [F|[]]; discriminate.
      * inversion Ht; subst. cbn in Hin. intuition discriminate.
Qed.

(** C1, on the code.  Whenever [query_bee_api] raises, and so when the
    retrieval fails, [stop_flag.set()] has not been called: the flag is
    unset when the exception leaves, and in no interleaving does the
    supervision thread see it set or ask the child to terminate. *)
Theorem failed_run_never_sets_stop_flag
        (env : Env) (swarmhash : string) (e : Exc) (w' : World) :
  query_bee_api env swarmhash world0 = (Raised e, w') ->
  w_stop_flag w' = false
  /\ Forall (fun ev => ~ writes_flag ev) (w_trace w')
  /\ (forall s, steps env (sys_init env swarmhash) s ->
                sys_flag s = false
                /\ still_supervising (sys_thread s)
                /\ ~ In ActTerminate (sys_acts s)).
Proof.
  intros Q. pose proof (main_cases env swarmhash world0) as M.
  destruct (query_bee_api_spec env swarmhash world0) as (o & w1 & E & H).
  rewrite Q in E. inversion E; subst o w1. rewrite Q in M.
  destruct H as (t & Ht & HP & Hf). cbn [world0 w_trace w_stop_flag app] in *.
  assert (Hset : forall x, is_setup x -> ~ writes_flag x)
    by (intros x; destruct x; cbn; tauto).
  assert (Hrep : forall l, Forall is_setup l -> replay l false = false).
  { induction 1 as [|x l Hx _ IH]; [reflexivity|].
    unfold replay in *. cbn [fold_left].
    replace (flag_after_event x false) with false
      by (destruct x; cbn in Hx; try contradiction; reflexivity).
    exact IH. }
  split; [rewrite Hf; apply Hrep, HP | split].
  - rewrite Ht. eapply Forall_impl; [apply Hset | exact HP].
  - intros s Hs.
    assert (Hmain : Forall (fun ev => ~ writes_flag ev)
                           (sys_main (sys_init env swarmhash))).
    { cbn [sys_init sys_main].
      destruct (exc_class e); rewrite M; cbn [snd w_trace]; rewrite Ht;
        try (eapply Forall_impl; [apply Hset | exact HP]).
      apply Forall_app. split; [eapply Forall_impl; [apply Hset | exact HP]|].
      repeat constructor. intros []. }
    destruct (unset_flag_keeps_supervising env _ _ Hs eq_refl Hmain I (fun F => F))
      as (Hf' & _ & Hp' & Ha').
    auto.
Qed.

Lemma failed_run_never_sets_stop_flag_witness :
  fst (query_bee_api Sample.gateway_404 "abc123" world0)
  = Raised (mkExc RuntimeError
              "Failed to download file using Bee API: 404 Client Error: Not Found")
  /\ w_stop_flag (snd (query_bee_api Sample.gateway_404 "abc123" world0)) = false.
Proof.
  split; [reflexivity|].
  refine (proj1 (failed_run_never_sets_stop_flag Sample.gateway_404 "abc123"
                   (mkExc RuntimeError
                      "Failed to download file using Bee API: 404 Client Error: Not Found")
                   _ _)).
  vm_compute. reflexivity.
Defined.

(** ** The join *)

Lemma main_never_terminates_process (env : Env) (swarmhash : string) :
  ~ In EvProcessTerminate (w_trace (snd (main env swarmhash world0))).
Proof.
  assert (S : forall t, Forall is_setup t -> ~ In EvProcessTerminate t)
    by (intros t; apply not_in_setup; intros []).
  pose proof (main_cases env swarmhash world0) as M.
  destruct (query_bee_api_spec env swarmhash world0) as (o & w1 & E & H).
  rewrite E in M. destruct o as [[]|[c msg]|]; [| |contradiction].
  - rewrite M. destruct H as (r & pre & t & G & St & Ht & Hpre & HP & Hf & Hsv).
    cbn [snd]. rewrite Ht. cbn [world0 w_trace app].
    intros Hin. apply in_app_or in Hin. destruct Hin as [Hin|Hin]; [exact (S _ Hpre Hin)|].
    destruct Hin as [F|[F|Hin]]; try discriminate.
    apply in_app_or in Hin. destruct Hin as [Hin|Hin].
    + apply (S t); [eapply Forall_impl; [apply io_is_setup | exact HP] | exact Hin].
    + cbn in Hin. intuition discriminate.
  - destruct H as (t & Ht & HP & Hf). cbn [world0 w_trace app] in Ht.
    destruct c; cbn [exc_class] in M; rewrite M; cbn [snd w_trace]; rewrite Ht;
      try (apply S, HP).
    intros Hin. apply in_app_or in Hin. destruct Hin as [Hin|Hin]; [exact (S _ HP Hin)|].
    cbn in Hin. intuition discriminate.
Qed.

(** C3, on the code.  The join waits at most one second, but its result is
    [None] whether or not the wait timed out, so the branch that terminates
    the process is never taken: no run calls [bee_process.terminate()].  In
    the run below the join times out with the child still alive (the thread
    is blocked in [process.wait()]), and [query_bee_api] returns without
    having forced anything. *)
Theorem join_never_forces_termination :
  (forall env w,
      stop_and_join env w =
      (Returned tt,
       mkWorld (w_trace w ++ [EvFlag FlagSet; EvJoin 1 (join_times_out env)])%list
               true (w_connects w)))
  /\ (forall env swarmhash,
         ~ In EvProcessTerminate (w_trace (snd (main env swarmhash world0))))
  /\ fst (query_bee_api Sample.slow_exit "abc123" world0) = Returned tt
  /\ last (w_trace (snd (query_bee_api Sample.slow_exit "abc123" world0))) EvEventNew
     = EvJoin 1 true
  /\ exists acts,
      steps Sample.slow_exit (sys_init Sample.slow_exit "abc123") (mkSys [] TWait true acts)
      /\ start_bee_node_step Sample.slow_exit TWait true = None.
Proof.
  split; [apply stop_and_join_run | split; [apply main_never_terminates_process | ]].
  split; [reflexivity | split; [reflexivity|]].
  eexists. split; [|reflexivity].
  set (t := w_trace (snd (main Sample.slow_exit "abc123" world0))).
  change (sys_init Sample.slow_exit "abc123")
    with (mkSys (removelast t ++ [EvJoin 1 true])%list TNotStarted false []).
  eapply steps_trans; [apply steps_main|].
  eapply steps_next; [eapply steps_next; [eapply steps_next; [eapply steps_next;
    [apply steps_refl|]|]|]|].
  - apply step_thread. reflexivity.
  - apply step_thread. reflexivity.
  - apply step_thread. reflexivity.
  - apply step_main.
Qed.

(** ** A child that cannot be spawned *)

(** C4, as amended.  If the child cannot be spawned, the error is raised in
    the supervision thread before the polling loop begins and ends that
    thread, which makes no second attempt; it does not reach
    [query_bee_api], whose run is the same whatever the spawn does. *)
Theorem spawn_error_stays_in_thread (env : Env) (bee_path msg : string) :
  popen_fails env (bee_command bee_path) = Some msg ->
  (forall flag,
      start_bee_node_step env (TSpawn bee_path) flag
      = Some (TCrashed (mkExc OSError msg), [ActPopen (bee_command bee_path)]))
  /\ (forall flag, start_bee_node_step env (TCrashed (mkExc OSError msg)) flag = None)
  /\ (forall f swarmhash w,
         query_bee_api (with_popen_fails env f) swarmhash w = query_bee_api env swarmhash w).
Proof.
  intros H. split; [|split].
  - intros flag. cbn [start_bee_node_step]. rewrite H. reflexivity.
  - reflexivity.
  - intros f swarmhash w. unfold query_bee_api.
    change (download_latest_bee (with_popen_fails env f)) with (download_latest_bee env).
    change (bee_path_exists (with_popen_fails env f)) with (bee_path_exists env).
    change (wait_for_bee (with_popen_fails env f)) with (wait_for_bee env).
    change (retrieve (with_popen_fails env f)) with (retrieve env).
    change (stop_and_join (with_popen_fails env f)) with (stop_and_join env).
    reflexivity.
Qed.

Lemma spawn_error_stays_in_thread_witness :
  start_bee_node_step Sample.spawn_fails (TSpawn "/home/u/.local/bin/bee-linux-amd64") false
  = Some (TCrashed (mkExc OSError "[Errno 8] Exec format error"),
          [ActPopen (bee_command "/home/u/.local/bin/bee-linux-amd64")]).
Proof.
  apply (proj1 (spawn_error_stays_in_thread Sample.spawn_fails
                  "/home/u/.local/bin/bee-linux-amd64" "[Errno 8] Exec format error"
                  eq_refl)).
Defined.

(** C4 fails as it is written: the binary cannot be executed, the thread is
    started all the same, and [query_bee_api] goes on to probe the port 30
    times and raises the start-up error, not the error of the spawn. *)
Lemma spawn_error_is_not_propagated :
  ~ spawn_error_propagates Sample.spawn_fails "abc123".
Proof.
  intros H.
  specialize (H "/home/u/.local/bin/bee-linux-amd64" "[Errno 8] Exec format error").
  assert (Hin : In (EvThreadStart "/home/u/.local/bin/bee-linux-amd64")
                   (w_trace (snd (query_bee_api Sample.spawn_fails "abc123" world0)))).
  { vm_compute. do 10 right. left. reflexivity. }
  assert (E : fst (query_bee_api Sample.spawn_fails "abc123" world0)
              = Raised (mkExc RuntimeError "Bee node failed to start after 30 retries.")).
  { vm_compute. reflexivity. }
  specialize (H Hin eq_refl). rewrite E in H. clear E Hin. discriminate H.
Qed.

(** * Further properties of the code *)

(** ** The search of the file name, continued *)

Lemma lazy_group_finds (g post : string) :
  Re.mem_char newline g = false -> Re.lazy_group (g ++ dq ++ post) <> None.
Proof.
  induction g as [|c g IH]; intros Hl; [discriminate|].
  cbn [Re.mem_char] in Hl. apply orb_false_iff in Hl as [Hl1 Hl2].
  cbn [append Re.lazy_group].
  destruct (Ascii.eqb c dquote); [discriminate|].
  rewrite Ascii.eqb_sym in Hl1. rewrite Hl1.
  specialize (IH Hl2).
  destruct (Re.lazy_group (g ++ dq ++ post)); [discriminate | congruence].
Qed.

Lemma search_complete : forall pre tok post,
  Re.mem_char newline tok = false ->
  Re.search (pre ++ Re.filename_lit ++ tok ++ dq ++ post) <> None.
Proof.
  induction pre as [|c pre IH]; intros tok post Hl.
  - change (EmptyString ++ Re.filename_lit ++ tok ++ dq ++ post)
      with (Re.filename_lit ++ tok ++ dq ++ post).
    destruct (Re.filename_lit ++ tok ++ dq ++ post) eqn:E; [discriminate|].
    unfold Re.search; fold Re.search. rewrite <- E. unfold Re.match_here.
    rewrite ReFacts.strip_prefix_complete.
    destruct (Re.lazy_group (tok ++ dq ++ post)) eqn:L; [discriminate|].
    exfalso. exact (lazy_group_finds tok post Hl L).
  - change (String c pre ++ Re.filename_lit ++ tok ++ dq ++ post)
      with (String c (pre ++ Re.filename_lit ++ tok ++ dq ++ post)).
    unfold Re.search; fold Re.search.
    destruct (Re.match_here (String c (pre ++ Re.filename_lit ++ tok ++ dq ++ post)));
      [discriminate | apply IH, Hl].
Qed.

(** X1.  The search succeeds exactly on the headers that hold the literal
    followed by a run without a line feed and a closing double quote; what
    it returns holds neither a double quote nor a line feed. *)
Theorem search_succeeds_iff_token (cd : string) :
  ((exists g, Re.search cd = Some g) <->
   (exists pre tok post,
       cd = pre ++ Re.filename_lit ++ tok ++ dq ++ post
       /\ Re.mem_char newline tok = false))
  /\ (forall g, Re.search cd = Some g ->
                Re.mem_char dquote g = false /\ Re.mem_char newline g = false).
Proof.
  split; [split|].
  - intros (g & S). destruct (ReFacts.search_sound _ _ S) as (pre & post & E & _ & Hl).
    now exists pre, g, post.
  - intros (pre & tok & post & -> & Hl).
    destruct (Re.search (pre ++ Re.filename_lit ++ tok ++ dq ++ post)) as [g|] eqn:S.
    + now exists g.
    + exfalso. exact (search_complete pre tok post Hl S).
  - intros g S. destruct (ReFacts.search_sound _ _ S) as (pre & post & _ & Hd & Hl).
    now split.
Qed.

Lemma search_succeeds_iff_token_witness :
  exists g, Re.search ("inline; filename=" ++ dq ++ "a" ++ dq ++ "b" ++ dq) = Some g.
Proof.
  apply (proj2 (proj1 (search_succeeds_iff_token
                         ("inline; filename=" ++ dq ++ "a" ++ dq ++ "b" ++ dq)))).
  exists "inline; ", ("a" ++ dq ++ "b"), EmptyString. split; reflexivity.
Defined.

(** X2.  The name the output file is opened under is never empty, and it is
    either the fallback name or a piece of the header, taken between the
    literal and a closing double quote, that holds neither a double quote
    nor a line feed. *)
Theorem output_filename_nonempty (content_disposition : option string) (swarmhash : string) :
  truthy (output_filename content_disposition swarmhash) = true
  /\ (output_filename content_disposition swarmhash = fallback_filename swarmhash
      \/ exists pre post,
          content_disposition
          = Some (pre ++ Re.filename_lit
                      ++ output_filename content_disposition swarmhash ++ dq ++ post)
          /\ Re.mem_char dquote (output_filename content_disposition swarmhash) = false
          /\ Re.mem_char newline (output_filename content_disposition swarmhash) = false).
Proof.
  unfold output_filename, header_filename.
  destruct content_disposition as [cd|]; [|split; [reflexivity | now left]].
  destruct (truthy cd); [|split; [reflexivity | now left]].
  destruct (Re.search cd) as [g|] eqn:S; [|split; [reflexivity | now left]].
  destruct (truthy g) eqn:T; [|split; [reflexivity | now left]].
  split; [exact T | right].
  destruct (ReFacts.search_sound _ _ S) as (pre & post & -> & Hd & Hl).
  now exists pre, post.
Qed.

(** ** Saving a response body *)




(** ** The exceptions that leave the program *)






























(** ** The readiness probe, in any environment *)



Lemma wait_other_error (env : Env) (msg : string) : forall n fuel rc w,
  n < fuel -> rc + n < max_retries ->
  (forall k, k < n -> refuses (connect_result env (w_connects w + k))) ->
  connect_result env (w_connects w + n) = ConnectFailed msg ->
  wait_for_bee env fuel rc w =
  (Raised (mkExc OSError msg),
   mkWorld (w_trace w ++ failed_attempts n ++ [probe_attempt])%list
           (w_stop_flag w) (w_connects w + S n)).
Proof.
  induction n as [|n IH]; intros fuel rc w Hfuel Hrc Hfail Herr;
    (destruct fuel as [|fuel]; [lia|]).
  - rewrite Nat.add_0_r in Herr. rewrite (wait_iter_error env fuel rc w msg Herr).
    rewrite Nat.add_1_r. reflexivity.
  - rewrite wait_iter_fail
      by (specialize (Hfail 0); rewrite Nat.add_0_r in Hfail; apply Hfail; lia).
    destruct (Nat.leb_spec max_retries (rc + 1)); [lia|].
    rewrite IH; cbn [w_trace w_stop_flag w_connects].
    + rewrite <- app_assoc. cbn [failed_attempts app]. f_equal. f_equal. lia.
    + lia.
    + lia.
    + intros k Hk. replace (S (w_connects w) + k) with (w_connects w + S k) by lia.
      apply Hfail. lia.
    + replace (S (w_connects w) + n) with (w_connects w + S n) by lia. exact Herr.
Qed.

(** X8.  An error of [connect] other than a timeout or a refusal is not
    retried: when it comes after [n] attempts that were refused or timed
    out, with [n < 30], it leaves the probe as it is, an [OSError], after
    [n + 1] attempts, and no [RuntimeError] is made of it. *)
Theorem probe_does_not_retry_other_errors
        (env : Env) (w : World) (n : nat) (msg : string) :
  n < 30 ->
  (forall k, k < n -> refuses (connect_result env (w_connects w + k))) ->
  connect_result env (w_connects w + n) = ConnectFailed msg ->
  wait_for_bee env max_retries 0 w =
  (Raised (mkExc OSError msg),
   mkWorld (w_trace w ++ failed_attempts n ++ [probe_attempt])%list
           (w_stop_flag w) (w_connects w + S n)).
Proof.
  intros Hn Hfail Herr. apply wait_other_error; unfold max_retries; try lia; assumption.
Qed.

Lemma probe_does_not_retry_other_errors_witness :
  wait_for_bee (with_connect_result Sample.served
                  (fun k => if (k <? 1)%nat then TimedOut
                            else ConnectFailed "[Errno 101] Network is unreachable"))
               max_retries 0 world0 =
  (Raised (mkExc OSError "[Errno 101] Network is unreachable"),
   mkWorld (w_trace world0 ++ failed_attempts 1 ++ [probe_attempt])%list
           (w_stop_flag world0) (w_connects world0 + 2)).
Proof.
  apply probe_does_not_retry_other_errors.
  - lia.
  - intros [|k] Hk; [left; reflexivity | lia].
  - reflexivity.
Defined.

(** ** One child, one termination request *)

Lemma count_starts_app (a b : list Event) :
  count_starts (a ++ b) = count_starts a + count_starts b.
Proof.
  induction a as [|e a IH]; [reflexivity|].
  destruct e; cbn [app count_starts]; rewrite IH; reflexivity.
Qed.

Lemma count_starts_none (t : list Event) : Forall no_start t -> count_starts t = 0.
Proof.
  induction 1 as [|e t He _ IH]; [reflexivity|].
  destruct e; cbn in He; try contradiction; exact IH.
Qed.

Lemma emits_starts_none {A} (m : M A) : emits no_start m -> starts_at_most 0 m.
Proof.
  intros H w. destruct (H w) as (t & Ht & HP & _).
  exists t. split; [exact Ht|]. rewrite (count_starts_none t HP). lia.
Qed.

Lemma starts_bind {A B} (a b : nat) (m : M A) (k : A -> M B) :
  starts_at_most a m -> (forall x, starts_at_most b (k x)) ->
  starts_at_most (a + b) (bind m k).
Proof.
  intros Hm Hk w. unfold bind. destruct (Hm w) as (t1 & Ht1 & Hc1).
  destruct (m w) as [[x|e|] w1]; cbn [snd] in *.
  - destruct (Hk x w1) as (t2 & Ht2 & Hc2).
    exists (t1 ++ t2)%list. rewrite Ht2, Ht1, app_assoc, count_starts_app.
    split; [reflexivity | lia].
  - exists t1. split; [exact Ht1 | lia].
  - exists t1. split; [exact Ht1 | lia].
Qed.

Lemma emits_flag_write (P : Event -> Prop) (op : FlagOp) :
  P (EvFlag op) -> emits P (flag_write op).
Proof.
  intros HP w. exists [EvFlag op]. cbn. repeat split; auto. discriminate.
Qed.

Lemma io_no_start (e : Event) : is_io e -> no_start e.
Proof. destruct e; cbn; tauto. Qed.

Lemma probe_no_start (e : Event) : is_probe e -> no_start e.
Proof. destruct e; cbn; tauto. Qed.

Lemma query_bee_api_starts_once (env : Env) (swarmhash : string) :
  starts_at_most 1 (query_bee_api env swarmhash).
Proof.
  unfold query_bee_api.
  apply (starts_bind 0 1).
  { apply emits_starts_none, (emits_weaken is_io);
      [apply io_no_start | apply emits_download_latest_bee]. }
  intros bee_path. apply (starts_bind 0 1).
  { apply emits_starts_none. unfold path_exists_m. repeat emits_step. }
  intros ex. destruct (negb ex).
  { intros w. exists []. cbn. rewrite app_nil_r. split; [reflexivity | lia]. }
  apply (starts_bind 0 1).
  { intros w. exists [EvEventNew]. cbn. split; [reflexivity | lia]. }
  intros _. apply (starts_bind 1 0).
  { intros w. exists [EvThreadStart bee_path]. cbn. split; [reflexivity | lia]. }
  intros _. apply (starts_bind 0 0).
  { apply emits_starts_none, (emits_weaken is_probe); [apply probe_no_start|].
    apply emits_wait_for_bee; unfold max_retries; lia. }
  intros _. apply (starts_bind 0 0).
  { apply emits_starts_none. unfold retrieve, requests_get_m, raise_for_status, print,
      stop_flag_set. cbv zeta.
    repeat first [ apply (emits_weaken is_io);
                   [apply io_no_start | apply emits_save_stream]
                 | apply emits_flag_write; exact I
                 | emits_step ]. }
  intros _ w. rewrite stop_and_join_run. eexists. cbn [snd w_trace].
  split; [reflexivity | cbn; lia].
Qed.

Lemma main_starts_once (env : Env) (swarmhash : string) :
  count_starts (w_trace (snd (main env swarmhash world0))) <= 1.
Proof.
  pose proof (main_cases env swarmhash world0) as M.
  destruct (query_bee_api_starts_once env swarmhash world0) as (t & Ht & Hc).
  destruct (query_bee_api env swarmhash world0) as [[[]|[c msg]|] w1];
    cbn [snd world0 w_trace app] in *; try (rewrite M; cbn [snd]; rewrite Ht; exact Hc).
  destruct c; cbn [exc_class] in M; rewrite M; cbn [snd w_trace]; rewrite Ht;
    try exact Hc.
  rewrite count_starts_app. cbn. lia.
Qed.

Lemma count_popen_app (a b : list ThreadAct) :
  count_popen (a ++ b) = count_popen a + count_popen b.
Proof.
  induction a as [|x a IH]; [reflexivity|].
  destruct x; cbn [app count_popen]; rewrite IH; reflexivity.
Qed.

Lemma count_terminate_app (a b : list ThreadAct) :
  count_terminate (a ++ b) = count_terminate a + count_terminate b.
Proof.
  induction a as [|x a IH]; [reflexivity|].
  destruct x; cbn [app count_terminate]; rewrite IH; reflexivity.
Qed.

Lemma step_keeps_inv (env : Env) (s s' : Sys) :
  step env s s' -> sys_inv s -> sys_inv s'.
Proof.
  intros Hs (Hst & Hp & Ht & Hfl & Hsafe).
  destruct Hs as [e rest pc flag acts | todo pc flag acts pc' new Hstep];
    unfold sys_inv; cbn [sys_main sys_thread sys_flag sys_acts] in *.
  - destruct Hsafe as [Hkeep Hsafe].
    assert (Hflag : still_supervising pc \/ flag_after_event e flag = true)
      by (destruct Hfl as [|Hfl]; [now left | right; auto]).
    destruct e; cbn [thread_after_event count_starts] in *;
      try (repeat split; auto; lia).
    assert (pc = TNotStarted) by (destruct pc; cbn in Hst; try lia; reflexivity).
    subst pc. cbn in *. repeat split; auto; lia.
  - destruct (thread_keeps_flag env pc pc' flag new Hstep) as [-> _].
    rewrite count_popen_app, count_terminate_app.
    destruct pc; cbn in Hstep; try discriminate.
    + destruct (popen_fails env (bee_command bee_path)); inversion Hstep; subst;
        cbn in *; repeat split; auto; lia.
    + destruct flag; inversion Hstep; subst; cbn in *; repeat split; auto; lia.
    + inversion Hstep; subst. cbn in *. repeat split; auto; try lia.
    + destruct (process_exits env); inversion Hstep; subst.
      cbn in *. repeat split; auto; try lia.
Qed.

Lemma steps_keep_inv (env : Env) (s s' : Sys) :
  steps env s s' -> sys_inv s -> sys_inv s'.
Proof.
  induction 1 as [|s1 s2 s3 _ IH Hs]; intros Inv; [exact Inv|].
  exact (step_keeps_inv env s2 s3 Hs (IH Inv)).
Qed.

Lemma sys_init_inv (env : Env) (swarmhash : string) : sys_inv (sys_init env swarmhash).
Proof.
  unfold sys_inv, sys_init. cbn [sys_main sys_thread sys_flag sys_acts].
  pose proof (main_starts_once env swarmhash).
  repeat split; cbn; auto; try lia. apply main_trace_safe.
Qed.

(** X9.  In every interleaving of a run the supervision thread spawns at
    most one child and sends it at most one termination request, and the
    main thread starts at most one supervision thread. *)
Theorem one_child_one_termination_request (env : Env) (swarmhash : string) :
  count_starts (w_trace (snd (main env swarmhash world0))) <= 1
  /\ forall s, steps env (sys_init env swarmhash) s ->
               count_popen (sys_acts s) <= 1 /\ count_terminate (sys_acts s) <= 1.
Proof.
  split; [apply main_starts_once|].
  intros s Hs.
  destruct (steps_keep_inv env _ _ Hs (sys_init_inv env swarmhash)) as (_ & Hp & Ht & _).
  rewrite Hp, Ht. destruct (sys_thread s); cbn; lia.
Qed.

Lemma one_child_one_termination_request_witness :
  count_popen [ActPopen (bee_command "/home/u/.local/bin/bee-linux-amd64")] <= 1
  /\ count_terminate [ActPopen (bee_command "/home/u/.local/bin/bee-linux-amd64")] <= 1.
Proof.
  apply (proj2 (one_child_one_termination_request Sample.served "abc123")
               (mkSys [] TPoll true
                      [ActPopen (bee_command "/home/u/.local/bin/bee-linux-amd64")])).
  eapply steps_next.
  - unfold sys_init.
    rewrite <- (app_nil_r (w_trace (snd (main Sample.served "abc123" world0)))).
    apply (steps_main Sample.served
             (w_trace (snd (main Sample.served "abc123" world0))) [] TNotStarted false []).
  - apply (step_thread Sample.served [] (TSpawn "/home/u/.local/bin/bee-linux-amd64") true []
                       TPoll [ActPopen (bee_command "/home/u/.local/bin/bee-linux-amd64")]).
    reflexivity.
Defined.

(** X10.  The child is asked to terminate only once the stop flag is set:
    in every state of every interleaving in which the thread has sent the
    termination request, or has left its polling loop, the flag is set. *)
Theorem termination_request_follows_stop_flag (env : Env) (swarmhash : string) (s : Sys) :
  steps env (sys_init env swarmhash) s ->
  (In ActTerminate (sys_acts s) -> sys_flag s = true)
  /\ (~ still_supervising (sys_thread s) -> sys_flag s = true).
Proof.
  intros Hs.
  destruct (steps_keep_inv env _ _ Hs (sys_init_inv env swarmhash))
    as (_ & _ & Ht & Hfl & _).
  assert (Hleft : ~ still_supervising (sys_thread s) -> sys_flag s = true)
    by (intros Hn; destruct Hfl as [Hsup|]; [contradiction | assumption]).
  split; [|exact Hleft].
  intros Hin. apply Hleft. intros Hsup.
  assert (Hz : count_terminate (sys_acts s) = 0)
    by (rewrite Ht; destruct (sys_thread s); cbn in *; auto; contradiction).
  clear - Hin Hz. induction (sys_acts s) as [|a acts IH]; [contradiction|].
  destruct Hin as [->|Hin]; [discriminate Hz|].
  destruct a; cbn in Hz; try discriminate; auto.
Qed.

Lemma termination_request_follows_stop_flag_witness :
  sys_flag (mkSys [] TTerminate true
                  [ActPopen (bee_command "/home/u/.local/bin/bee-linux-amd64");
                   ActIsSet true]) = true.
Proof.
  refine (proj2 (termination_request_follows_stop_flag Sample.served "abc123"
                   (mkSys [] TTerminate true
                          [ActPopen (bee_command "/home/u/.local/bin/bee-linux-amd64");
                           ActIsSet true]) _) (fun H => H)).
  eapply steps_next; [eapply steps_next|].
  - unfold sys_init.
    rewrite <- (app_nil_r (w_trace (snd (main Sample.served "abc123" world0)))).
    apply (steps_main Sample.served
             (w_trace (snd (main Sample.served "abc123" world0))) [] TNotStarted false []).
  - apply (step_thread Sample.served [] (TSpawn "/home/u/.local/bin/bee-linux-amd64") true []
                       TPoll [ActPopen (bee_command "/home/u/.local/bin/bee-linux-amd64")]).
    reflexivity.
  - apply (step_thread Sample.served [] TPoll true
                       [ActPopen (bee_command "/home/u/.local/bin/bee-linux-amd64")]
                       TTerminate [ActIsSet true]).
    reflexivity.
Defined.

(** ** The binary that is installed *)

Lemma json_getitem_ok (obj : Json) (key : string) (v : Json) :
  json_getitem obj key = inr v ->
  exists fields, obj = JObj fields /\ obj_get fields key = Some v.
Proof.
  destruct obj; cbn [json_getitem]; try discriminate.
  destruct (obj_get fields key) as [v'|] eqn:G; [|discriminate].
  intros H. inversion H; subst. now exists fields.
Qed.

(** What the loop of lines 59-63 selects is the download address of an
    asset whose name compares equal to the mapped one. *)
Lemma select_sound (assets : list Json) (os_name arch : string) (u : Json) :
  select_download_url assets os_name arch = inr (Some u) ->
  exists fields name,
    In (JObj fields) assets
    /\ obj_get fields "name" = Some name
    /\ json_eq_opt name (dict_get filename_map (os_name, arch)) = true
    /\ obj_get fields "browser_download_url" = Some u.
Proof.
  induction assets as [|a rest IH]; cbn [select_download_url]; [discriminate|].
  destruct (json_getitem a "name") as [e|name] eqn:N; [discriminate|].
  destruct (json_eq_opt name (dict_get filename_map (os_name, arch))) eqn:Q.
  - destruct (json_getitem a "browser_download_url") as [e|url] eqn:U; [discriminate|].
    intros H. inversion H; subst url.
    destruct (json_getitem_ok _ _ _ N) as (fields & -> & Hn).
    destruct (json_getitem_ok _ _ _ U) as (fields' & E & Hu). inversion E; subst fields'.
    exists fields, name. repeat split; auto. now left.
  - intros H. destruct (IH H) as (fields & name' & Hin & Hn & Hq & Hu).
    exists fields, name'. repeat split; auto. now right.
Qed.

(** A value equal to the mapped name is that name, or [null] when the
    platform has none. *)
Lemma json_eq_opt_true (v : Json) (target : option string) :
  json_eq_opt v target = true ->
  match target with Some f => v = JStr f | None => v = JNull end.
Proof.
  destruct v, target; cbn [json_eq_opt]; try discriminate; try reflexivity.
  intros H. apply String.eqb_eq in H. now subst.
Qed.

(** When lines 43-66 return, the world is as it was and the value returned
    is the truthy download address the loop selected. *)
Lemma locate_asset_returned (env : Env) (r : Response) (w w' : World) (u : Json) :
  locate_asset env r w = (Returned u, w') ->
  w' = w
  /\ exists data assets items,
      resp_json r = inr data
      /\ json_get data "assets" (JArr []) = inr assets
      /\ json_iter assets = inr items
      /\ select_download_url items (lower (platform_system env)) (platform_machine env)
         = inr (Some u)
      /\ json_truthy u = true.
Proof.
  unfold locate_asset, bind, lift, response_json.
  destruct (resp_json r) as [msg|data] eqn:J; [discriminate|].
  destruct (json_get data "assets" (JArr [])) as [e|assets] eqn:A; [discriminate|].
  cbv zeta. destruct (json_iter assets) as [e|items] eqn:I; [discriminate|].
  destruct (select_download_url items _ _) as [e|[u'|]] eqn:S; try discriminate.
  destruct (json_truthy u') eqn:T; cbn [negb]; [|discriminate].
  intros H. inversion H; subst. split; [reflexivity|].
  now exists data, assets, items.
Qed.

Lemma fetch_release_returned (env : Env) (w w' : World) (r : Response) :
  fetch_release env w = (Returned r, w') ->
  requests_get env releases_url = inr r
  /\ resp_status_error r = None
  /\ w' = after w [EvHttpGet releases_url].
Proof.
  rewrite fetch_release_run.
  destruct (requests_get env releases_url) as [msg|r0]; [discriminate|].
  destruct (resp_status_error r0) eqn:St; [discriminate|].
  intros H. inversion H; subst. auto.
Qed.

Ltac gets_step :=
  match goal with
  | |- emits _ (emit _) =>
      apply emits_emit; [first [exact I | reflexivity] | intros []]
  | _ => emits_step
  end.

Lemma emits_no_get_save_stream (env : Env) (path : string) (r : Response) :
  emits no_get (save_stream env path r).
Proof.
  assert (W : forall chunks, emits no_get (write_chunks env path chunks)).
  { induction chunks as [|c cs IH]; cbn [write_chunks].
    - apply emits_ret.
    - unfold file_write. repeat emits_step. exact IH. }
  unfold save_stream. repeat first [apply W | emits_step].
Qed.

Lemma no_get_gets_only (u : string) (e : Event) : no_get e -> gets_only u e.
Proof. destruct e; cbn; tauto. Qed.

(** The only request of lines 68-102 goes to the download address. *)
Lemma emits_gets_only_install_asset (env : Env) (download_url : Json) :
  emits (fun e => match e with
                  | EvHttpGet url => download_url = JStr url
                  | _ => True
                  end)
        (install_asset env download_url).
Proof.
  unfold install_asset. cbv zeta.
  apply emits_bind.
  { unfold path_exists_m, makedirs. repeat gets_step. }
  intros _.
  apply emits_bind_post with (Q := fun s => download_url = JStr s).
  { apply emits_lift. }
  { intros w s w' H. unfold lift in H.
    destruct download_url; cbn [fspath] in H; inversion H; reflexivity. }
  intros s ->. apply (emits_weaken (gets_only s)).
  { intros [] H; cbn in *; try exact I. now subst. }
  unfold requests_get_m, raise_for_status, makedirs_exist_ok, chmod.
  repeat first
    [ apply (emits_weaken no_get);
      [apply no_get_gets_only | apply emits_no_get_save_stream]
    | gets_step ].
Qed.

(** X11.  The only requests [download_latest_bee] makes are the one for the
    release metadata and, after it, requests for the download address of
    an asset of that metadata whose name compares equal to what the table
    gives for the platform.  So on a platform of the table it never fetches
    an asset that does not carry the mapped name, the binary of another
    platform; on a platform that is not in the table, what it can fetch is
    an asset whose name is [null]. *)
Theorem downloads_only_the_selected_asset (env : Env) (w : World) :
  exists t,
    w_trace (snd (download_latest_bee env w))
    = (w_trace w ++ EvHttpGet releases_url :: t)%list
    /\ forall url,
        In (EvHttpGet url) t ->
        exists r data assets items fields name,
          requests_get env releases_url = inr r
          /\ resp_json r = inr data
          /\ json_get data "assets" (JArr []) = inr assets
          /\ json_iter assets = inr items
          /\ In (JObj fields) items
          /\ obj_get fields "name" = Some name
          /\ obj_get fields "browser_download_url" = Some (JStr url)
          /\ match mapped_name env with
             | Some f => name = JStr f
             | None => name = JNull
             end.
Proof.
  unfold download_latest_bee, bind.
  destruct (fetch_release env w) as [[r| |] w1] eqn:F;
    try (pose proof F as F'; rewrite fetch_release_run in F'; inversion F'; subst w1;
         exists []; split; [reflexivity | intros url []]).
  destruct (fetch_release_returned env w w1 r F) as (G & St & ->).
  assert (E : forall t, (w_trace (after w [EvHttpGet releases_url]) ++ t
                         = w_trace w ++ EvHttpGet releases_url :: t)%list)
    by (intros t; cbn [after w_trace]; now rewrite <- app_assoc).
  pose proof (locate_asset_pure env r (after w [EvHttpGet releases_url])) as L.
  destruct (locate_asset env r (after w [EvHttpGet releases_url])) as [[u| |] w2] eqn:Loc;
    cbn [snd] in L; subst w2;
    try (exists []; split; [reflexivity | intros url []]).
  destruct (locate_asset_returned env r _ _ u Loc)
    as (_ & data & assets & items & J & A & It & S & T).
  destruct (emits_gets_only_install_asset env u (after w [EvHttpGet releases_url]))
    as (t & Ht & HP & _).
  exists t. rewrite Ht. split; [apply E|].
  intros url Hin. rewrite Forall_forall in HP. specialize (HP _ Hin). cbn in HP. subst u.
  destruct (select_sound _ _ _ _ S) as (fields & name & Hin' & Hn & Hq & Hu).
  exists r, data, assets, items, fields, name. repeat split; auto.
  exact (json_eq_opt_true _ _ Hq).
Qed.

Lemma bind_returned {A B} (m : M A) (k : A -> M B) (w w' : World) (b : B) :
  bind m k w = (Returned b, w') ->
  exists a w1, m w = (Returned a, w1) /\ k a w1 = (Returned b, w').
Proof.
  unfold bind. destruct (m w) as [[a|e|] w1]; intros H; try discriminate H.
  now exists a, w1.
Qed.

Lemma emits_extends {A} (P : Event -> Prop) (m : M A) (w w' : World) (o : Outcome A) :
  emits P m -> m w = (o, w') ->
  exists t, w_trace w' = (w_trace w ++ t)%list /\ Forall P t.
Proof.
  intros Hm E. destruct (Hm w) as (t & Ht & HP & _). rewrite E in Ht.
  now exists t.
Qed.

Lemma emits_no_chmod_save_stream (env : Env) (path : string) (r : Response) :
  emits no_chmod (save_stream env path r).
Proof.
  assert (W : forall chunks, emits no_chmod (write_chunks env path chunks)).
  { induction chunks as [|c cs IH]; cbn [write_chunks].
    - apply emits_ret.
    - unfold file_write. repeat emits_step. exact IH. }
  unfold save_stream. repeat first [apply W | emits_step].
Qed.

Lemma save_stream_closes (env : Env) (path : string) (r : Response) (w w' : World) :
  save_stream env path r w = (Returned tt, w') ->
  exists t, w_trace w' = (w_trace w ++ t ++ [EvClose path])%list /\ Forall no_chmod t.
Proof.
  intros H. destruct (save_stream_returned env path r w w' H) as (_ & _ & _ & ->).
  exists (EvOpen path :: map (EvWrite path) (resp_chunks r)). split.
  - cbn [after w_trace app]. reflexivity.
  - constructor; [exact I|]. apply Forall_forall. intros e He.
    apply in_map_iff in He as (c & <- & _). exact I.
Qed.

(** X12.  When [download_latest_bee] returns, the path it returns is the
    install directory joined with the base name of the selected download
    address; the last thing it did to that file was to close it and, on a
    POSIX system, to set its mode to 0o755; on another system, or before
    that point, it never changes a mode. *)
Theorem installed_binary_path_and_mode (env : Env) (w w' : World) (p : string) :
  download_latest_bee env w = (Returned p, w') ->
  exists r data assets items u t,
    requests_get env releases_url = inr r
    /\ resp_json r = inr data
    /\ json_get data "assets" (JArr []) = inr assets
    /\ json_iter assets = inr items
    /\ select_download_url items (lower (platform_system env)) (platform_machine env)
       = inr (Some (JStr u))
    /\ truthy u = true
    /\ p = os_path_join env (download_dir env) (os_path_basename env u)
    /\ w_trace w' =
       (w_trace w ++ t ++ EvClose p
          :: (if String.eqb (env_os_name env) "posix" then [EvChmod p 493] else []))%list
    /\ Forall no_chmod t.
Proof.
  intros H. unfold download_latest_bee in H.
  apply bind_returned in H as (r & w1 & HB & HK).
  destruct (fetch_release_returned env w w1 r HB) as (G & St & Hw1).
  apply bind_returned in HK as (ju & w1' & HL & HK).
  destruct (locate_asset_returned env r w1 w1' ju HL)
    as (-> & data & assets & items & J & A & It & S & T).
  unfold install_asset in HK. cbv zeta in HK. fold (download_dir env) in HK.
  apply bind_returned in HK as (x1 & w2 & HD & HK).
  apply bind_returned in HK as (u & w2' & HF & HK).
  assert (Eu : ju = JStr u /\ w2' = w2).
  { unfold lift in HF. destruct ju; cbn [fspath] in HF; inversion HF; subst. auto. }
  destruct Eu as [-> ->]. clear HF. cbn [json_truthy] in T.
  apply bind_returned in HK as (x2 & w3 & HT & HK).
  apply bind_returned in HK as (x3 & w4 & HC & HK).
  inversion HK; subst p w4. clear HK.
  set (path := os_path_join env (download_dir env) (os_path_basename env u)) in *.
  exists r, data, assets, items, u.
  (* the directory *)
  assert (E2 : exists t, w_trace w2 = (w_trace w1 ++ t)%list /\ Forall no_chmod t).
  { eapply emits_extends; [|exact HD].
    unfold path_exists_m, makedirs. repeat emits_step. }
  destruct E2 as (t2 & Ht2 & HP2).
  (* the transfer *)
  assert (E3 : exists t, w_trace w3 = (w_trace w2 ++ t ++ [EvClose path])%list
                         /\ Forall no_chmod t).
  { unfold try_except in HT.
    match type of HT with
    | context [bind ?m ?k] => destruct (bind m k w2) as [[[]|e|] w3'] eqn:Body
    end; try discriminate HT.
    - inversion HT; subst w3'. clear HT.
      apply bind_returned in Body as (resp & wa & Ha & Body).
      apply bind_returned in Body as (y1 & wb & Hb & Body).
      apply bind_returned in Body as (y2 & wc & Hc & Body).
      destruct (save_stream_closes env path resp wc w3 Body) as (ts & Hts & HPs).
      assert (Ea : exists t, w_trace wa = (w_trace w2 ++ t)%list /\ Forall no_chmod t)
        by (eapply emits_extends; [|exact Ha]; unfold requests_get_m; repeat emits_step).
      assert (Eb : exists t, w_trace wb = (w_trace wa ++ t)%list /\ Forall no_chmod t)
        by (eapply emits_extends; [|exact Hb]; unfold raise_for_status; repeat emits_step).
      assert (Ec : exists t, w_trace wc = (w_trace wb ++ t)%list /\ Forall no_chmod t)
        by (eapply emits_extends; [|exact Hc]; unfold makedirs_exist_ok; repeat emits_step).
      destruct Ea as (ta & Hta & HPa), Eb as (tb & Htb & HPb), Ec as (tc & Htc & HPc).
      exists (ta ++ tb ++ tc ++ ts)%list.
      rewrite Hts, Htc, Htb, Hta, <- !app_assoc. split; [reflexivity|].
      repeat (apply Forall_app; split); assumption.
    - exfalso. revert HT. cbn [dispatch].
      destruct (catches [RequestException] e); [discriminate|].
      destruct (catches [OSError] e); discriminate. }
  destruct E3 as (t3 & Ht3 & HP3).
  exists (EvHttpGet releases_url :: t2 ++ t3)%list.
  subst w1. cbn [after w_trace] in Ht2.
  repeat split; auto.
  - destruct (String.eqb (env_os_name env) "posix").
    + revert HC. unfold chmod, bind, emit.
      destruct (chmod_fails env path); [discriminate|].
      cbn [fail_if ret]. intros E. inversion E; subst. cbn [w_trace].
      rewrite Ht3, Ht2. repeat (rewrite <- ?app_assoc; cbn [app]). reflexivity.
    + inversion HC; subst. rewrite Ht3, Ht2.
      repeat (rewrite <- ?app_assoc; cbn [app]). reflexivity.
  - constructor; [exact I|]. apply Forall_app. split; assumption.
Qed.

Lemma installed_binary_path_and_mode_witness :
  exists r data assets items u t,
    requests_get Sample.served releases_url = inr r
    /\ resp_json r = inr data
    /\ json_get data "assets" (JArr []) = inr assets
    /\ json_iter assets = inr items
    /\ select_download_url items
         (lower (platform_system Sample.served)) (platform_machine Sample.served)
       = inr (Some (JStr u))
    /\ truthy u = true
    /\ "/home/u/.local/bin/bee-linux-amd64"
       = os_path_join Sample.served (download_dir Sample.served)
           (os_path_basename Sample.served u)
    /\ w_trace (snd (download_latest_bee Sample.served world0)) =
       (w_trace world0 ++ t ++ EvClose "/home/u/.local/bin/bee-linux-amd64"
          :: (if String.eqb (env_os_name Sample.served) "posix"
              then [EvChmod "/home/u/.local/bin/bee-linux-amd64" 493] else []))%list
    /\ Forall no_chmod t.
Proof.
  apply (installed_binary_path_and_mode Sample.served world0).
  vm_compute. reflexivity.
Defined.
(** ** A run that returns *)

(** X13.  [query_bee_api] returns only after a retrieval that the gateway
    answered with a success.  The run then ends with the body saved under
    the output file name (the file is opened, receives every chunk of the
    body in order, and is closed), the line that reports it, two calls of
    [stop_flag.set()] and the join with its timeout of one second; the flag
    is set, and nothing before the retrieval request wrote output or
    touched an existing flag. *)
Theorem returned_run_sets_stop_flag (env : Env) (swarmhash : string) (w w' : World) :
  query_bee_api env swarmhash w = (Returned tt, w') ->
  w_stop_flag w' = true
  /\ exists r pre,
      requests_get env (bee_url swarmhash) = inr r
      /\ resp_status_error r = None
      /\ w_trace w' =
         (w_trace w ++ pre ++ EvHttpGet (bee_url swarmhash)
            :: EvOpen (output_filename (resp_content_disposition r) swarmhash)
            :: map (EvWrite (output_filename (resp_content_disposition r) swarmhash))
                 (resp_chunks r)
            ++ [EvClose (output_filename (resp_content_disposition r) swarmhash);
                EvPrint ("Downloaded file: "
                         ++ output_filename (resp_content_disposition r) swarmhash);
                EvFlag FlagSet; EvFlag FlagSet; EvJoin 1 (join_times_out env)])%list
      /\ Forall is_setup pre.
Proof.
  intros Q. destruct (query_bee_api_spec env swarmhash w) as (o & w1 & E & H).
  rewrite Q in E. inversion E; subst o w1.
  destruct H as (r & pre & t & G & St & Ht & Hpre & HP & Hf & Hsv).
  split; [exact Hf|]. exists r, pre. repeat split; auto.
  rewrite Ht, Hsv. rewrite <- !app_assoc. reflexivity.
Qed.

Lemma returned_run_sets_stop_flag_witness :
  w_stop_flag (snd (query_bee_api Sample.served "abc123" world0)) = true.
Proof.
  refine (proj1 (returned_run_sets_stop_flag Sample.served "abc123" world0 _ _)).
  vm_compute. reflexivity.
Defined.
